(** * gammapy.maps.base: the abstract map class [MapBase]

    A shallow embedding of [gammapy/maps/base.py].  Python objects are
    records, methods are functions that take the receiver and return the
    outcome together with the receiver's next state, and a raised
    exception is the left summand of the outcome. *)

From Stdlib Require Import ZArith String Ascii Floats Lia.
From stdpp Require Import gmap strings list.

(** ** Python outcomes *)

(** The exceptions the module can raise, with their message. *)
Inductive exn : Type :=
| StopIteration
| Exception (msg : string)
| ValueError (msg : string)
| ImportError (msg : string)
| NameError (name : string)
| AttributeError (msg : string)
| TypeError (msg : string).

(** A call either raises or returns. *)
Definition result (A : Type) : Type := exn + A.

Definition ok {A} (a : A) : result A := inr a.
Definition raise {A} (e : exn) : result A := inl e.

Definition bind {A B} (r : result A) (k : A -> result B) : result B :=
  match r with
  | inl e => inl e
  | inr a => k a
  end.

Notation "x <~ r ;; k" := (bind r (fun x => k))
  (at level 100, r at next level, right associativity).

(** ** numpy arrays *)

(** An array is its shape and its elements in C (row-major) order. *)
Record ndarray (V : Type) : Type := NdArray {
  shape : list nat;
  flat : list V
}.
Arguments NdArray {V} _ _.
Arguments shape {V} _.
Arguments flat {V} _.

(** Number of elements a shape holds. *)
Definition shape_size (sh : list nat) : nat := foldr Nat.mul 1 sh.

(** Every array numpy builds has as many elements as its shape says. *)
Definition wf_array {V} (a : ndarray V) : Prop :=
  length (flat a) = shape_size (shape a).

(** [np.unravel_index k sh]: the multi-index of flat position [k]. *)
Fixpoint unravel_index (sh : list nat) (k : nat) : list nat :=
  match sh with
  | [] => []
  | _ :: rest => k / shape_size rest :: unravel_index rest (k mod shape_size rest)
  end.

(** [np.ravel_multi_index idx sh]: the flat position of a multi-index,
    [None] when it has the wrong arity or a component out of range. *)
Fixpoint ravel_multi_index (sh : list nat) (idx : list nat) : option nat :=
  match sh, idx with
  | [], [] => Some 0
  | d :: rest, i :: idx' =>
      if i <? d
      then match ravel_multi_index rest idx' with
           | Some o => Some (i * shape_size rest + o)
           | None => None
           end
      else None
  | _, _ => None
  end.

(** [a[idx]] for a full multi-index. *)
Definition getitem {V} (a : ndarray V) (idx : list nat) : option V :=
  match ravel_multi_index (shape a) idx with
  | Some o => flat a !! o
  | None => None
  end.

(** [np.ndenumerate(arr)]: the array it was built over and the flat
    position of the element it yields next. *)
Record ndenumerate (V : Type) : Type := NdEnumerate {
  nd_arr : ndarray V;
  nd_pos : nat
}.
Arguments NdEnumerate {V} _ _.
Arguments nd_arr {V} _.
Arguments nd_pos {V} _.

Definition np_ndenumerate {V} (arr : ndarray V) : ndenumerate V :=
  NdEnumerate arr 0.

(** [next(it)] on an [ndenumerate]: the pair (coords, value) of the
    current element, or [StopIteration] past the last one. *)
Definition ndenumerate_next {V} (it : ndenumerate V)
  : result (list nat * V) * ndenumerate V :=
  match flat (nd_arr it) !! nd_pos it with
  | Some v =>
      (ok (unravel_index (shape (nd_arr it)) (nd_pos it), v),
       NdEnumerate (nd_arr it) (S (nd_pos it)))
  | None => (raise StopIteration, it)
  end.

(** Everything a fresh [ndenumerate] over [arr] yields, in order. *)
Definition ndenumerate_items {V} (arr : ndarray V) : list (list nat * V) :=
  imap (fun k v => (unravel_index (shape arr) k, v)) (flat arr).

(** ** Geometry *)

(** Modelled from the spec: the geometry classes ([gammapy.maps.geom]) are
    not part of the sources.  The spec gives a geometry a fixed shape made
    of the spatial pixel grid (two dimensions for a grid backend, one for
    a tessellation) followed by the bins of each non-spatial axis, and a
    conversion from a coordinate tuple to a pixel index tuple. *)
Record MapGeom : Type := {
  npix : list nat;
  axes : list nat;
  coord_to_pix : list float -> list Z
}.

Definition geom_shape (g : MapGeom) : list nat := npix g ++ axes g.

(** ** MapBase *)

Record MapBase (V : Type) : Type := {
  _data : ndarray V;
  _geom : MapGeom;
  _iter : option (ndenumerate V)
}.
Arguments Build_MapBase {V} _ _ _.
Arguments _data {V} _.
Arguments _geom {V} _.
Arguments _iter {V} _.

(** [MapBase.__init__(self, geom, data)] *)
Definition __init__ {V} (geom : MapGeom) (data : ndarray V) : MapBase V :=
  {| _data := data; _geom := geom; _iter := None |}.

(** The [data] property. *)
Definition data {V} (self : MapBase V) : ndarray V := _data self.

(** The [geom] property. *)
Definition geom {V} (self : MapBase V) : MapGeom := _geom self.

(** The [data] setter. *)
Definition data_setter {V} (val : ndarray V) (self : MapBase V)
  : result unit * MapBase V :=
  if bool_decide (shape val <> shape (data self))
  then (raise (Exception "Wrong shape."), self)
  else (ok tt, {| _data := val; _geom := _geom self; _iter := _iter self |}).

(** [geom] is a property without a setter: assigning to it raises and
    binds nothing. *)
Definition geom_setter {V} (val : MapGeom) (self : MapBase V)
  : result unit * MapBase V :=
  (raise (AttributeError "can't set attribute"), self).

(** [MapBase.__iter__] *)
Definition __iter__ {V} (self : MapBase V) : MapBase V * MapBase V :=
  (self, self).

(** [MapBase.__next__] *)
Definition __next__ {V} (self : MapBase V)
  : result (list nat * V) * MapBase V :=
  let it :=
    match _iter self with
    | None => np_ndenumerate (data self)
    | Some it => it
    end in
  match ndenumerate_next it with
  | (inl StopIteration, _) =>
      (raise StopIteration,
       {| _data := _data self; _geom := _geom self; _iter := None |})
  | (r, it') =>
      (r, {| _data := _data self; _geom := _geom self; _iter := Some it' |})
  end.

(** [next = __next__] *)
Definition next {V} : MapBase V -> result (list nat * V) * MapBase V :=
  __next__.

(** [for item in self: acc.append(item)]: [iter(self)] once, then [next]
    until [StopIteration].  [None] when [fuel] calls did not reach the end. *)
Fixpoint next_until_stop {V} (fuel : nat) (self : MapBase V)
  : option (result (list (list nat * V)) * MapBase V) :=
  match fuel with
  | 0 => None
  | S fuel' =>
      match __next__ self with
      | (inr item, self') =>
          match next_until_stop fuel' self' with
          | Some (inr items, self'') => Some (inr (item :: items), self'')
          | other => other
          end
      | (inl StopIteration, self') => Some (inr [], self')
      | (inl e, self') => Some (inl e, self')
      end
  end.

Definition for_loop {V} (fuel : nat) (self : MapBase V)
  : option (result (list (list nat * V)) * MapBase V) :=
  next_until_stop fuel (snd (__iter__ self)).

(** [k] calls of [next], outcomes dropped. *)
Fixpoint advance {V} (k : nat) (self : MapBase V) : MapBase V :=
  match k with
  | 0 => self
  | S k' => advance k' (snd (__next__ self))
  end.

(** ** The factory [MapBase.create] *)

(** Values a keyword argument can hold: a [str], or an object of another
    type.  [create] does two things with such an object: it formats it
    into a message ([repr] is what [format] gives) and it evaluates
    [tag in v.lower()] for a tag; [tag_test] is what that expression does
    on the object: it raises ([AttributeError] for [None] or a number,
    which have no [lower]; [TypeError] for [bytes] on Python 3), or it
    gives a truth value.  Strings are byte strings; [lower] acts on the
    ASCII letters. *)
Inductive pyval : Type :=
| PyStr (s : string)
| PyOther (repr : string) (tag_test : string -> result bool).

Definition ascii_lower (c : ascii) : ascii :=
  let n := nat_of_ascii c in
  if (65 <=? n) && (n <=? 90) then ascii_of_nat (n + 32) else c.

(** [s.lower()], on the ASCII letters. *)
Fixpoint lower (s : string) : string :=
  match s with
  | EmptyString => EmptyString
  | String c s' => String (ascii_lower c) (lower s')
  end.

(** [s.startswith(sub)] *)
Fixpoint startswith (sub s : string) : bool :=
  match sub, s with
  | EmptyString, _ => true
  | String a sub', String b s' => Ascii.eqb a b && startswith sub' s'
  | String _ _, EmptyString => false
  end.

(** [sub in s] *)
Fixpoint str_in (sub s : string) : bool :=
  startswith sub s ||
  match s with
  | EmptyString => false
  | String _ s' => str_in sub s'
  end.

(** The two tags [create] looks for are lower case already. *)
Ltac lower_tags H :=
  change (lower "wcs") with "wcs"%string in H;
  change (lower "hpx") with "hpx"%string in H.

(** [tag in v.lower()] on a keyword value. *)
Definition tag_in_lower (tag : string) (v : pyval) : result bool :=
  match v with
  | PyStr s => ok (str_in tag (lower s))
  | PyOther _ tag_test => tag_test tag
  end.

(** ['Unrecognized map type: {}'.format(v)] *)
Definition format_unrecognized (v : pyval) : string :=
  match v with
  | PyStr s => "Unrecognized map type: " +:+ s
  | PyOther repr _ => "Unrecognized map type: " +:+ repr
  end.

(** [d.setdefault(key, dflt)]: the value now bound to [key] and the
    dictionary, updated when [key] was missing. *)
Definition setdefault (d : gmap string pyval) (key : string) (dflt : pyval)
  : pyval * gmap string pyval :=
  match d !! key with
  | Some v => (v, d)
  | None => (dflt, <[key := dflt]> d)
  end.

(** An object a name can be bound to: a class with a [create]
    classmethod ([R] is what the backends build), or an object the
    embedding does not look into. *)
Inductive pyobj (R : Type) : Type :=
| PyClass (create_method : gmap string pyval -> result R)
| PyOpaque.
Arguments PyClass {R} _.
Arguments PyOpaque {R}.

(** [obj.create( **kwargs )] *)
Definition call_create {R} (obj : pyobj R) (kwargs : gmap string pyval)
  : result R :=
  match obj with
  | PyClass create_method => create_method kwargs
  | PyOpaque => raise (AttributeError "object has no attribute 'create'")
  end.

(** [from .m import name], against the sibling modules of the package
    (they are not part of the sources: [modules] maps a module name to
    the names it defines). *)
Definition import_from {R} (modules : gmap string (gmap string (pyobj R)))
    (m name : string) : result (pyobj R) :=
  match modules !! m with
  | None => raise (ImportError ("No module named " +:+ m))
  | Some ns =>
      match ns !! name with
      | None => raise (ImportError ("cannot import name " +:+ name))
      | Some obj => ok obj
      end
  end.

(** The names bound at module level in [base.py]: its imports, [__all__]
    and its two classes. *)
Definition base_globals : list string :=
  ["absolute_import"; "division"; "print_function"; "unicode_literals";
   "abc"; "np"; "six"; "InheritDocstrings"; "__all__"; "MapMeta"; "MapBase"]%string.

(** A name [create] reads without binding it is looked up in the module's
    globals ([WcsMap] is no builtin either). *)
Definition load_global {R} (name : string) : result (pyobj R) :=
  if bool_decide (name ∈ base_globals) then ok PyOpaque
  else raise (NameError name).

(** [MapBase.create(cls, **kwargs)].  The two [import] statements bind the
    same local name [HpxMap], the second over the first; [WcsMap] is bound
    nowhere in the function. *)
Definition create {R} (modules : gmap string (gmap string (pyobj R)))
    (kwargs : gmap string pyval) : result R :=
  HpxMap <~ import_from modules "hpxmap" "HpxMap" ;;
  HpxMap <~ import_from modules "wcsmap" "HpxMap" ;;
  let '(map_type, kwargs) := setdefault kwargs "map_type" (PyStr "wcs") in
  is_wcs <~ tag_in_lower "wcs" map_type ;;
  if is_wcs then
    WcsMap <~ load_global "WcsMap" ;;
    call_create WcsMap kwargs
  else
    is_hpx <~ tag_in_lower "hpx" map_type ;;
    if is_hpx then
      call_create HpxMap kwargs
    else
      raise (ValueError (format_unrecognized map_type)).

(** The factory as its docstring and the names it calls describe it:
    [WcsMap] taken from [wcsmap], [HpxMap] from [hpxmap]. *)
Definition create_documented {R} (modules : gmap string (gmap string (pyobj R)))
    (kwargs : gmap string pyval) : result R :=
  HpxMap <~ import_from modules "hpxmap" "HpxMap" ;;
  WcsMap <~ import_from modules "wcsmap" "WcsMap" ;;
  let '(map_type, kwargs) := setdefault kwargs "map_type" (PyStr "wcs") in
  is_wcs <~ tag_in_lower "wcs" map_type ;;
  if is_wcs then call_create WcsMap kwargs
  else
    is_hpx <~ tag_in_lower "hpx" map_type ;;
    if is_hpx then call_create HpxMap kwargs
    else raise (ValueError (format_unrecognized map_type)).

(** [sub] occurs in [s] up to the case of ASCII letters. *)
Definition ci_substring (sub s : string) : Prop :=
  exists pre mid post, s = pre +:+ mid +:+ post /\ lower mid = lower sub.

(** ** The accessor contract of the concrete maps

    [MapBase] declares [sum_over_axes], [get_by_coords], [get_by_pix],
    [fill_by_coords], [fill_by_pix], [set_by_coords] and [set_by_pix]
    abstract: their bodies are [pass], and the maps that implement them
    are not part of the sources.  The definitions of this part follow the
    contract the spec gives for them.  Pixel indices are taken after
    rounding, as integers, and arrays are values: an operation that
    writes returns the map with its new data.  Writing while a traversal
    is in progress is left out, as the spec leaves it undefined. *)

(** Pixel values: numbers with a not-a-number sentinel and an addition. *)
Class PixelValue (V : Type) : Type := {
  vzero : V;
  vone : V;
  vnan : V;
  vadd : V -> V -> V
}.


(** numpy's float64. *)
#[global] Instance float_value : PixelValue float := {|
  vzero := 0%float;
  vone := 1%float;
  vnan := nan;
  vadd := PrimFloat.add
|}.

(** Exact integers with an absorbing not-a-number. *)
#[global] Instance exact_value : PixelValue (option Z) := {|
  vzero := Some 0%Z;
  vone := Some 1%Z;
  vnan := None;
  vadd := fun x y =>
    match x, y with
    | Some a, Some b => Some (a + b)%Z
    | _, _ => None
    end
|}.

(** [interp] of the read operations. *)
Inductive interp_mode : Type := InterpNone | InterpNearest | InterpLinear.

(** Per-dimension parallel arrays (the tuple an accessor receives):
    the number of entries, whether they are one array per dimension of
    equal length, and the tuple of entry [k]. *)
Definition n_entries {A} (arrs : list (list A)) : nat :=
  match arrs with
  | [] => 0
  | a :: _ => length a
  end.

Definition parallel {A} (ndim : nat) (arrs : list (list A)) : bool :=
  (length arrs =? ndim) && forallb (fun a => length a =? n_entries arrs) arrs.

Definition entry {A} (arrs : list (list A)) (k : nat) : list A :=
  omap (fun a => a !! k) arrs.

Definition entries {A} (arrs : list (list A)) : list (list A) :=
  entry arrs <$> seq 0 (n_entries arrs).

Definition to_index (i : Z) : option nat :=
  if (0 <=? i)%Z then Some (Z.to_nat i) else None.

(** The flat position a pixel index tuple addresses, [None] outside the
    map's domain. *)
Definition pix_offset (sh : list nat) (addr : list Z) : option nat :=
  idx ← mapM to_index addr; ravel_multi_index sh idx.

(** A tuple with one index per dimension, one of them below zero or at or
    past the dimension's length. *)
Definition outside_extent (sh : list nat) (addr : list Z) : Prop :=
  length addr = length sh /\
  exists k i d, addr !! k = Some i /\ sh !! k = Some d /\ (i < 0 \/ Z.of_nat d <= i)%Z.

(** [np.zeros(sh)] *)
Definition zeros {V} `{PixelValue V} (sh : list nat) : ndarray V :=
  NdArray sh (replicate (shape_size sh) vzero).

(** [a.sum()] *)
Definition vsum {V} `{PixelValue V} (l : list V) : V := foldr vadd vzero l.

(** What the entries addressing flat position [o] carry, in call order. *)
Definition hits {V} (sh : list nat) (o : nat) (es : list (list Z * V)) : list V :=
  snd <$> filter (fun e => pix_offset sh (fst e) = Some o) es.

(** Modelled from the spec: the geometry of the image that is left when
    the non-spatial axes are gone, the same pixel grid with no axes; the
    geometry classes are not part of the sources. *)
Definition to_image (g : MapGeom) : MapGeom :=
  {| npix := npix g;
     axes := [];
     coord_to_pix := fun c => take (length (npix g)) (coord_to_pix g c) |}.

(** Modelled from the spec: the read of one index tuple, which the
    implementations of [get_by_pix] are missing from the sources for: the
    addressed pixel, or the sentinel outside the domain.  On integer
    indices every interpolation mode reads the addressed pixel. *)
Definition read_pix {V} `{PixelValue V} (a : ndarray V) (addr : list Z) : V :=
  match pix_offset (shape a) addr with
  | Some o => default vnan (flat a !! o)
  | None => vnan
  end.

(** Modelled from the spec: [get_by_pix], abstract in [MapBase]; one
    value per index tuple, in input order, the sentinel for a tuple
    outside the domain. *)
Definition get_by_pix {V} `{PixelValue V} (self : MapBase V)
    (pix : list (list Z)) (interp : interp_mode) : result (list V) :=
  if parallel (length (shape (data self))) pix
  then ok (read_pix (data self) <$> entries pix)
  else raise (ValueError "index arrays do not match the map").

(** Modelled from the spec: the number of coordinate arrays an accessor
    by coordinates takes, whatever the backend: longitude, latitude, and
    one per non-spatial axis. *)
Definition coords_arity (g : MapGeom) : nat := 2 + length (axes g).

(** Modelled from the spec: [get_by_coords], abstract in [MapBase]; the
    same read through the geometry's coordinate conversion, which takes a
    tuple (lon, lat, axis_0, ..., axis_n) to the pixel index tuple of the
    backend. *)
Definition get_by_coords {V} `{PixelValue V} (self : MapBase V)
    (coords : list (list float)) (interp : interp_mode) : result (list V) :=
  if parallel (coords_arity (geom self)) coords
  then ok (read_pix (data self) <$> (coord_to_pix (geom self) <$> entries coords))
  else raise (ValueError "coordinate arrays do not match the map").

(** Modelled from the spec: one step of a fill, which the implementations
    of [fill_by_pix] are missing from the sources for; the weight is added
    to the addressed pixel, and nothing happens outside the domain. *)
Definition add_at {V} `{PixelValue V} (sh : list nat) (fl : list V)
    (e : list Z * V) : list V :=
  match pix_offset sh (fst e) with
  | Some o => alter (fun v => vadd v (snd e)) o fl
  | None => fl
  end.

(** Modelled from the spec: one step of a set, which the implementations
    of [set_by_pix] are missing from the sources for; the value replaces
    the addressed pixel, and nothing happens outside the domain. *)
Definition write_at {V} (sh : list nat) (fl : list V)
    (e : list Z * V) : list V :=
  match pix_offset sh (fst e) with
  | Some o => <[o := snd e]> fl
  | None => fl
  end.

(** The map with its data's elements replaced. *)
Definition with_flat {V} (self : MapBase V) (fl : list V) : MapBase V :=
  {| _data := NdArray (shape (data self)) fl;
     _geom := _geom self;
     _iter := _iter self |}.

(** Modelled from the spec: the body shared by [fill_by_pix] and
    [fill_by_coords], abstract in [MapBase]; the weights are added to the
    addressed pixels, entry after entry; a missing [weights] is a weight
    of one per entry; arrays of different lengths fail before anything is
    written. *)
Definition fill_addresses {V} `{PixelValue V} (self : MapBase V)
    (addrs : list (list Z)) (weights : option (list V))
  : result unit * MapBase V :=
  let ws := default (replicate (length addrs) vone) weights in
  if length ws =? length addrs
  then (ok tt,
        with_flat self
          (foldl (add_at (shape (data self))) (flat (data self)) (zip addrs ws)))
  else (raise (ValueError "weights do not match the addresses"), self).

(** Modelled from the spec: [fill_by_pix], abstract in [MapBase]. *)
Definition fill_by_pix {V} `{PixelValue V} (self : MapBase V)
    (pix : list (list Z)) (weights : option (list V))
  : result unit * MapBase V :=
  if parallel (length (shape (data self))) pix
  then fill_addresses self (entries pix) weights
  else (raise (ValueError "index arrays do not match the map"), self).

(** Modelled from the spec: [fill_by_coords], abstract in [MapBase]. *)
Definition fill_by_coords {V} `{PixelValue V} (self : MapBase V)
    (coords : list (list float)) (weights : option (list V))
  : result unit * MapBase V :=
  if parallel (coords_arity (geom self)) coords
  then fill_addresses self (coord_to_pix (geom self) <$> entries coords) weights
  else (raise (ValueError "coordinate arrays do not match the map"), self).

(** Modelled from the spec: the body shared by [set_by_pix] and
    [set_by_coords], abstract in [MapBase]; the values overwrite the
    addressed pixels, entry after entry, so the last entry for a pixel
    stays. *)
Definition set_addresses {V} (self : MapBase V)
    (addrs : list (list Z)) (vals : list V)
  : result unit * MapBase V :=
  if length vals =? length addrs
  then (ok tt,
        with_flat self
          (foldl (write_at (shape (data self))) (flat (data self)) (zip addrs vals)))
  else (raise (ValueError "values do not match the addresses"), self).

(** Modelled from the spec: [set_by_pix], abstract in [MapBase]. *)
Definition set_by_pix {V} (self : MapBase V)
    (pix : list (list Z)) (vals : list V)
  : result unit * MapBase V :=
  if parallel (length (shape (data self))) pix
  then set_addresses self (entries pix) vals
  else (raise (ValueError "index arrays do not match the map"), self).

(** Modelled from the spec: [set_by_coords], abstract in [MapBase]. *)
Definition set_by_coords {V} (self : MapBase V)
    (coords : list (list float)) (vals : list V)
  : result unit * MapBase V :=
  if parallel (coords_arity (geom self)) coords
  then set_addresses self (coord_to_pix (geom self) <$> entries coords) vals
  else (raise (ValueError "coordinate arrays do not match the map"), self).

(** Modelled from the spec: [sum_over_axes], abstract in [MapBase]; the
    non-spatial axes come last in the shape, so the elements of one
    spatial pixel are consecutive; each pixel of the result is their sum,
    in a new map over the image geometry. *)
Definition sum_over_axes {V} `{PixelValue V} (self : MapBase V) : MapBase V :=
  let ns := length (npix (geom self)) in
  let sp := take ns (shape (data self)) in
  let nax := shape_size (drop ns (shape (data self))) in
  {| _data :=
       NdArray sp
         ((fun i => vsum (take nax (drop (i * nax) (flat (data self)))))
            <$> seq 0 (shape_size sp));
     _geom := to_image (geom self);
     _iter := None |}.

(** Modelled from the spec: maps that hold their array by reference,
    for what the spec says about sharing ("a new independent entity, not
    a view", "in-place pixel fills"); the maps that implement the
    accessors are not part of the sources.  A store binds array objects
    to their contents; a map names the array object it holds. *)
Record MapRef : Type := {
  ref_data : nat;
  ref_geom : MapGeom
}.

(** The map a reference stands for in a store, cursor unset. *)
Definition deref {V} (st : gmap nat (ndarray V)) (m : MapRef)
  : option (MapBase V) :=
  d ← st !! ref_data m;
  Some {| _data := d; _geom := ref_geom m; _iter := None |}.

(** Modelled from the spec: [sum_over_axes] on a store; the result holds
    an array object of its own, new in the store. *)
Definition sum_over_axes_alloc {V} `{PixelValue V}
    (st : gmap nat (ndarray V)) (m : MapRef)
  : option (gmap nat (ndarray V) * MapRef) :=
  self ← deref st m;
  let l := fresh (dom st) in
  Some (<[l := data (sum_over_axes self)]> st,
        {| ref_data := l; ref_geom := geom (sum_over_axes self) |}).

(** Modelled from the spec: [fill_by_pix] and [set_by_pix] on a store;
    they write into the array object the map holds. *)
Definition fill_by_pix_inplace {V} `{PixelValue V}
    (st : gmap nat (ndarray V)) (m : MapRef)
    (pix : list (list Z)) (weights : option (list V))
  : option (result unit * gmap nat (ndarray V)) :=
  self ← deref st m;
  Some (fst (fill_by_pix self pix weights),
        <[ref_data m := data (snd (fill_by_pix self pix weights))]> st).



(** ** Sequences of calls on one map *)

(** What a caller can do with a map through the members [MapBase]
    implements: read or assign [data], read or assign [geom], [iter] and
    [next]. *)
Inductive op (V : Type) : Type :=
| OpGetData
| OpGetGeom
| OpSetData (val : ndarray V)
| OpSetGeom (val : MapGeom)
| OpIter
| OpNext.
Arguments OpGetData {V}.
Arguments OpGetGeom {V}.
Arguments OpSetData {V} _.
Arguments OpSetGeom {V} _.
Arguments OpIter {V}.
Arguments OpNext {V}.

(** The map after one call; a raised exception is caught by the caller. *)
Definition run_op {V} (o : op V) (self : MapBase V) : MapBase V :=
  match o with
  | OpGetData => self
  | OpGetGeom => self
  | OpSetData val => snd (data_setter val self)
  | OpSetGeom val => snd (geom_setter val self)
  | OpIter => snd (__iter__ self)
  | OpNext => snd (__next__ self)
  end.

Definition run_ops {V} (ops : list (op V)) (self : MapBase V) : MapBase V :=
  foldl (fun s o => run_op o s) self ops.

(** ** Example objects *)

(** A 4 x 4 grid with one non-spatial axis of two bins, whose coordinates
    are pixel coordinates: [x] lies in bin [floor x]. *)
Definition unit_bin (x : float) : Z :=
  if (x <? 0)%float then (-1)%Z
  else if (x <? 1)%float then 0%Z
  else if (x <? 2)%float then 1%Z
  else if (x <? 3)%float then 2%Z
  else if (x <? 4)%float then 3%Z
  else 4%Z.

Definition example_geom : MapGeom :=
  {| npix := [4; 4]; axes := [2]; coord_to_pix := fmap unit_bin |}.

Definition example_map : MapBase float :=
  __init__ example_geom (zeros (geom_shape example_geom)).

(** A tessellation of twelve pixels in three rings of four, with one
    non-spatial axis of two bins: its data has one spatial dimension, and
    its coordinates are (lon, lat, axis) as on every backend. *)
Definition ring_pix (lon lat : float) : Z :=
  if ((0 <=? unit_bin lon) && (unit_bin lon <? 4) &&
      (0 <=? unit_bin lat) && (unit_bin lat <? 3))%Z
  then (unit_bin lat * 4 + unit_bin lon)%Z
  else (-1)%Z.

Definition example_hpx_geom : MapGeom :=
  {| npix := [12];
     axes := [2];
     coord_to_pix := fun c =>
       match c with
       | lon :: lat :: rest => ring_pix lon lat :: (unit_bin <$> rest)
       | _ => []
       end |}.

Definition example_hpx_map : MapBase float :=
  __init__ example_hpx_geom (zeros (geom_shape example_hpx_geom)).


(** The same grid over exact values, holding 0, 1, ..., 31. *)
Definition counting_map : MapBase (option Z) :=
  __init__ example_geom
    (NdArray [4; 4; 2] ((fun k => Some (Z.of_nat k)) <$> seq 0 32)).

(** A map built over the grid with an array of another shape. *)
Definition mismatched_map : MapBase float :=
  __init__ example_geom (NdArray [2] [1%float; 2%float]).

(** Backends whose [create] returns the class name and the keyword
    arguments it received, and two layouts of the sibling modules:
    [wcsmap] defining only [WcsMap], and [wcsmap] also binding the name
    [HpxMap]. *)
Definition example_WcsMap : pyobj (string * gmap string pyval) :=
  PyClass (fun kwargs => ok ("WcsMap"%string, kwargs)).

Definition example_HpxMap : pyobj (string * gmap string pyval) :=
  PyClass (fun kwargs => ok ("HpxMap"%string, kwargs)).

Definition plain_modules : gmap string (gmap string (pyobj (string * gmap string pyval))) :=
  {[ "hpxmap"%string := {[ "HpxMap"%string := example_HpxMap ]};
     "wcsmap"%string := {[ "WcsMap"%string := example_WcsMap ]} ]}.

Definition sharing_modules : gmap string (gmap string (pyobj (string * gmap string pyval))) :=
  {[ "hpxmap"%string := {[ "HpxMap"%string := example_HpxMap ]};
     "wcsmap"%string := {[ "WcsMap"%string := example_WcsMap;
                           "HpxMap"%string := example_HpxMap ]} ]}.

(** The arrays a sequence of calls assigns to [data], in call order. *)
Definition assigned {V} (ops : list (op V)) : list (ndarray V) :=
  omap (fun o => match o with OpSetData val => Some val | _ => None end) ops.

(** A map over the grid with no element (an axis of no bin), an array of
    ones for the grid, and a layout of the sibling modules where [wcsmap]
    binds to [HpxMap] a class of its own. *)
Definition empty_map : MapBase float :=
  __init__ {| npix := [4; 4]; axes := [0]; coord_to_pix := fmap unit_bin |}
    (NdArray [4; 4; 0] []).

Definition ones_array : ndarray (option Z) :=
  NdArray [4; 4; 2] (replicate 32 (Some 1%Z)).

(** [None], and a [bytes] value on Python 3, as keyword values. *)
Definition py_None : pyval :=
  PyOther "None"
    (fun _ => raise (AttributeError "'NoneType' object has no attribute 'lower'")).

Definition py_bytes (b : string) : pyval :=
  PyOther ("b'" +:+ b +:+ "'")
    (fun _ => raise (TypeError "a bytes-like object is required, not 'str'")).

Definition other_HpxMap : pyobj (string * gmap string pyval) :=
  PyClass (fun kwargs => ok ("wcsmap.HpxMap"%string, kwargs)).

Definition shadowing_modules : gmap string (gmap string (pyobj (string * gmap string pyval))) :=
  {[ "hpxmap"%string := {[ "HpxMap"%string := example_HpxMap ]};
     "wcsmap"%string := {[ "WcsMap"%string := example_WcsMap;
                           "HpxMap"%string := other_HpxMap ]} ]}.

(** [for a in self: for b in self: rows.append((a, bs))]: a loop over a
    map whose body loops over the same map.  Both loops call [next] on
    the one map, which [iter] hands back unchanged; [None] when [fuel] rounds of the outer loop did not
    reach its end, or [inner] calls did not end a round's inner loop. *)
Fixpoint nested_for {V} (fuel inner : nat) (self : MapBase V)
  : option (list ((list nat * V) * list (list nat * V)) * MapBase V) :=
  match fuel with
  | 0 => None
  | S fuel' =>
      match __next__ self with
      | (inr a, self1) =>
          match for_loop inner self1 with
          | Some (inr bs, self2) =>
              match nested_for fuel' inner self2 with
              | Some (rows, self3) => Some ((a, bs) :: rows, self3)
              | None => None
              end
          | _ => None
          end
      | (inl _, self1) => Some ([], self1)
      end
  end.

(** * Properties *)

(** ** Multi-indices and flat positions *)

Lemma ravel_unravel_index sh : forall k,
  k < shape_size sh -> ravel_multi_index sh (unravel_index sh k) = Some k.
Proof.
  induction sh as [|d rest IH]; intros k Hk; simpl in *.
  - f_equal. lia.
  - assert (Hpos : shape_size rest <> 0) by (intros E; rewrite E in Hk; lia).
    assert (Hq : k / shape_size rest < d).
    { apply Nat.Div0.div_lt_upper_bound. lia. }
    apply Nat.ltb_lt in Hq. rewrite Hq.
    rewrite IH by (apply Nat.mod_upper_bound; exact Hpos).
    f_equal. pose proof (Nat.div_mod k (shape_size rest) Hpos). lia.
Qed.

Lemma unravel_ravel_index sh : forall idx k,
  ravel_multi_index sh idx = Some k ->
  unravel_index sh k = idx /\ k < shape_size sh.
Proof.
  induction sh as [|d rest IH]; intros [|i idx] k Hr; simpl in *; try discriminate.
  - injection Hr as <-. split; [reflexivity | lia].
  - destruct (i <? d) eqn:Hi; [|discriminate].
    destruct (ravel_multi_index rest idx) as [o|] eqn:Ho; [|discriminate].
    injection Hr as <-. apply Nat.ltb_lt in Hi.
    destruct (IH _ _ Ho) as [Hu Hlt].
    assert (Hdiv : (i * shape_size rest + o) / shape_size rest = i).
    { rewrite Nat.div_add_l by lia. rewrite Nat.div_small by lia. lia. }
    assert (Hmod : (i * shape_size rest + o) mod shape_size rest = o).
    { rewrite Nat.add_comm, Nat.Div0.mod_add. apply Nat.mod_small; lia. }
    rewrite Hdiv, Hmod, Hu. split; [reflexivity | nia].
Qed.

Lemma ravel_multi_index_in_range sh : forall idx o,
  ravel_multi_index sh idx = Some o -> Forall2 lt idx sh.
Proof.
  induction sh as [|d rest IH]; intros [|i idx] o Hr; simpl in Hr; try discriminate.
  - constructor.
  - destruct (i <? d) eqn:Hi; [|discriminate].
    destruct (ravel_multi_index rest idx) as [o'|] eqn:Ho; [|discriminate].
    constructor; [apply Nat.ltb_lt; exact Hi | eapply IH; exact Ho].
Qed.



(** ** The iteration protocol *)

Section Iteration.
Context {V : Type}.
Implicit Types (self : MapBase V) (arr d : ndarray V) (g : MapGeom).

Lemma ndenumerate_items_lookup arr k :
  ndenumerate_items arr !! k
  = (fun v => (unravel_index (shape arr) k, v)) <$> (flat arr !! k).
Proof.
  unfold ndenumerate_items.
  apply (list_lookup_imap (fun k v => (unravel_index (shape arr) k, v))).
Qed.

Lemma ndenumerate_items_length arr :
  length (ndenumerate_items arr) = length (flat arr).
Proof. unfold ndenumerate_items. apply length_imap. Qed.

Lemma ndenumerate_items_row_major arr k idx v :
  wf_array arr ->
  ndenumerate_items arr !! k = Some (idx, v) ->
  ravel_multi_index (shape arr) idx = Some k /\ getitem arr idx = Some v.
Proof.
  intros Hwf Hk. rewrite ndenumerate_items_lookup in Hk.
  destruct (flat arr !! k) as [v'|] eqn:Hv; [|discriminate].
  injection Hk as <- <-.
  pose proof (lookup_lt_Some _ _ _ Hv) as Hlt. rewrite Hwf in Hlt.
  unfold getitem. rewrite (ravel_unravel_index _ _ Hlt). split; [reflexivity | exact Hv].
Qed.

Lemma ndenumerate_items_complete arr idx v :
  getitem arr idx = Some v ->
  exists k, ndenumerate_items arr !! k = Some (idx, v).
Proof.
  unfold getitem. intros Hg.
  destruct (ravel_multi_index (shape arr) idx) as [o|] eqn:Ho; [|discriminate].
  exists o. rewrite ndenumerate_items_lookup, Hg. simpl.
  destruct (unravel_ravel_index _ _ _ Ho) as [-> _]. reflexivity.
Qed.

Lemma ndenumerate_items_NoDup arr :
  wf_array arr -> NoDup (fst <$> ndenumerate_items arr).
Proof.
  intros Hwf. apply NoDup_alt. intros i j idx Hi Hj.
  rewrite list_lookup_fmap in Hi, Hj.
  destruct (ndenumerate_items arr !! i) as [[idx1 v1]|] eqn:Ei; [|discriminate].
  destruct (ndenumerate_items arr !! j) as [[idx2 v2]|] eqn:Ej; [|discriminate].
  simpl in Hi, Hj. injection Hi as ->. injection Hj as ->.
  destruct (ndenumerate_items_row_major _ _ _ _ Hwf Ei) as [Hri _].
  destruct (ndenumerate_items_row_major _ _ _ _ Hwf Ej) as [Hrj _].
  congruence.
Qed.

Lemma next_running d g arr p :
  __next__ {| _data := d; _geom := g; _iter := Some (NdEnumerate arr p) |}
  = match flat arr !! p with
    | Some v => (inr (unravel_index (shape arr) p, v),
                 {| _data := d; _geom := g; _iter := Some (NdEnumerate arr (S p)) |})
    | None => (inl StopIteration, {| _data := d; _geom := g; _iter := None |})
    end.
Proof.
  unfold __next__, ndenumerate_next; simpl.
  destruct (flat arr !! p); reflexivity.
Qed.

Lemma next_fresh self :
  _iter self = None ->
  __next__ self
  = __next__ {| _data := _data self; _geom := _geom self;
                _iter := Some (np_ndenumerate (data self)) |}.
Proof. intros Hi. unfold __next__. rewrite Hi. reflexivity. Qed.

Lemma next_until_stop_running fuel : forall d g arr p,
  length (flat arr) - p < fuel ->
  next_until_stop fuel {| _data := d; _geom := g; _iter := Some (NdEnumerate arr p) |}
  = Some (inr (drop p (ndenumerate_items arr)),
          {| _data := d; _geom := g; _iter := None |}).
Proof.
  induction fuel as [|fuel IH]; intros d g arr p Hfuel; [lia|].
  cbn [next_until_stop]. rewrite next_running.
  destruct (flat arr !! p) as [v|] eqn:Hv.
  - pose proof (lookup_lt_Some _ _ _ Hv) as Hlt.
    rewrite IH by lia.
    erewrite (drop_S (ndenumerate_items arr) _ p); [reflexivity|].
    rewrite ndenumerate_items_lookup, Hv. reflexivity.
  - apply lookup_ge_None in Hv.
    rewrite drop_ge by (rewrite ndenumerate_items_length; lia).
    reflexivity.
Qed.

Lemma next_until_stop_fresh fuel self :
  _iter self = None ->
  length (flat (data self)) < fuel ->
  next_until_stop fuel self = Some (inr (ndenumerate_items (data self)), self).
Proof.
  intros Hi Hfuel. destruct fuel as [|fuel]; [lia|].
  pose proof (next_until_stop_running (S fuel) (_data self) (_geom self) (data self) 0) as H.
  cbn [next_until_stop] in *. rewrite next_fresh by exact Hi.
  unfold np_ndenumerate. rewrite H by lia.
  destruct self as [d g it]; simpl in *; subst it. reflexivity.
Qed.

Lemma advance_running k : forall d g arr p,
  p + k <= length (flat arr) ->
  advance k {| _data := d; _geom := g; _iter := Some (NdEnumerate arr p) |}
  = {| _data := d; _geom := g; _iter := Some (NdEnumerate arr (p + k)) |}.
Proof.
  induction k as [|k IH]; intros d g arr p Hk; simpl.
  - rewrite Nat.add_0_r. reflexivity.
  - rewrite next_running.
    destruct (lookup_lt_is_Some_2 (flat arr) p) as [v Hv]; [lia|].
    rewrite Hv. simpl. rewrite IH by lia. do 3 f_equal. lia.
Qed.

Lemma advance_fresh k self :
  _iter self = None -> 0 < k -> k <= length (flat (data self)) ->
  advance k self
  = {| _data := _data self; _geom := _geom self;
       _iter := Some (NdEnumerate (data self) k) |}.
Proof.
  intros Hi Hk Hle. destruct k as [|k]; [lia|].
  cbn [advance]. rewrite next_fresh by exact Hi.
  unfold np_ndenumerate. rewrite next_running.
  destruct (lookup_lt_is_Some_2 (flat (data self)) 0) as [v Hv]; [lia|].
  rewrite Hv. simpl. rewrite advance_running by lia. reflexivity.
Qed.

Lemma next_until_stop_ends self :
  exists n, forall fuel, n < fuel ->
    exists items,
      next_until_stop fuel self
      = Some (inr items,
              {| _data := _data self; _geom := _geom self; _iter := None |}).
Proof.
  destruct self as [d g [[arr p]|]].
  - exists (length (flat arr) - p). intros fuel Hfuel.
    eexists. apply next_until_stop_running. exact Hfuel.
  - exists (length (flat d)). intros fuel Hfuel.
    eexists. apply (next_until_stop_fresh fuel (Build_MapBase d g None));
      [reflexivity | exact Hfuel].
Qed.

(** C4: on a map whose cursor is unset (as [__init__] leaves it and as
    every finished traversal leaves it), [iter] followed by [next] until
    [StopIteration] ends, yields the pairs of [np.ndenumerate(data)]: the
    pair at position [k] carries the multi-index whose row-major rank is
    [k] and the element stored there, every element of [data] occurs, no
    multi-index occurs twice, and the map is left with its cursor unset,
    so that a second traversal yields the same pairs again.  From any
    state of the cursor the loop ends, given enough calls, and leaves the
    data and the geometry as they were and the cursor unset. *)
Theorem iteration_visits_every_element_once self fuel :
  _iter self = None ->
  wf_array (data self) ->
  length (flat (data self)) < fuel ->
  for_loop fuel self = Some (inr (ndenumerate_items (data self)), self) /\
  length (ndenumerate_items (data self)) = shape_size (shape (data self)) /\
  (forall k idx v, ndenumerate_items (data self) !! k = Some (idx, v) ->
     ravel_multi_index (shape (data self)) idx = Some k /\
     getitem (data self) idx = Some v) /\
  (forall idx v, getitem (data self) idx = Some v ->
     exists k, ndenumerate_items (data self) !! k = Some (idx, v)) /\
  NoDup (fst <$> ndenumerate_items (data self)) /\
  (forall items self',
     for_loop fuel self = Some (inr items, self') ->
     _iter self' = None /\
     for_loop fuel self' = Some (inr items, self')) /\
  (forall other : MapBase V,
     exists n, forall fuel', n < fuel' ->
       exists items,
         for_loop fuel' other
         = Some (inr items,
                 {| _data := _data other; _geom := _geom other; _iter := None |})).
Proof.
  intros Hi Hwf Hfuel.
  assert (Hloop : for_loop fuel self
                  = Some (inr (ndenumerate_items (data self)), self)).
  { unfold for_loop, __iter__. simpl. apply next_until_stop_fresh; assumption. }
  split; [exact Hloop|]. split; [|split; [|split; [|split; [|split]]]].
  - rewrite ndenumerate_items_length. exact Hwf.
  - intros k idx v. apply ndenumerate_items_row_major. exact Hwf.
  - apply ndenumerate_items_complete.
  - apply ndenumerate_items_NoDup. exact Hwf.
  - intros items self' Hsome. rewrite Hloop in Hsome.
    injection Hsome as <- <-. split; [exact Hi | exact Hloop].
  - intros other. apply (next_until_stop_ends other).
Qed.

(** C10: [__iter__] returns the map itself and leaves its state as it
    was.  So after [k] calls of [next] on a fresh map, with elements still
    to come, [iter] keeps the cursor at position [k]: the next call of
    [next] yields the element of row-major rank [k], which is not what a
    fresh traversal yields first, and a [for] loop started there yields
    only the elements from position [k] on. *)
Theorem iter_keeps_cursor :
  (forall self, __iter__ self = (self, self)) /\
  (forall self k fuel,
     _iter self = None ->
     wf_array (data self) ->
     0 < k -> k < length (flat (data self)) ->
     length (flat (data self)) < fuel ->
     snd (__iter__ (advance k self)) = advance k self /\
     _iter (advance k self) = Some (NdEnumerate (data self) k) /\
     (exists idx v,
        fst (__next__ (snd (__iter__ (advance k self)))) = inr (idx, v) /\
        ndenumerate_items (data self) !! k = Some (idx, v) /\
        ravel_multi_index (shape (data self)) idx = Some k /\
        fst (__next__ self) <> inr (idx, v)) /\
     for_loop fuel (advance k self)
     = Some (inr (drop k (ndenumerate_items (data self))), self)).
Proof.
  split; [reflexivity|].
  intros self k fuel Hi Hwf Hk Hlt Hfuel.
  assert (Hmid : advance k self
                 = {| _data := _data self; _geom := _geom self;
                      _iter := Some (NdEnumerate (data self) k) |}).
  { apply advance_fresh; [assumption | assumption | lia]. }
  split; [reflexivity|]. split; [rewrite Hmid; reflexivity|]. split.
  - destruct (lookup_lt_is_Some_2 (flat (data self)) k Hlt) as [v Hv].
    exists (unravel_index (shape (data self)) k), v.
    assert (Hitem : ndenumerate_items (data self) !! k
                    = Some (unravel_index (shape (data self)) k, v)).
    { rewrite ndenumerate_items_lookup, Hv. reflexivity. }
    destruct (ndenumerate_items_row_major _ _ _ _ Hwf Hitem) as [Hr _].
    repeat split; try assumption.
    + unfold __iter__. simpl. rewrite Hmid, next_running, Hv. reflexivity.
    + rewrite next_fresh by exact Hi. unfold np_ndenumerate. rewrite next_running.
      destruct (lookup_lt_is_Some_2 (flat (data self)) 0) as [v0 Hv0]; [lia|].
      rewrite Hv0. simpl. intros Heq. injection Heq as Hidx _.
      assert (Hitem0 : ndenumerate_items (data self) !! 0
                       = Some (unravel_index (shape (data self)) 0, v0)).
      { rewrite ndenumerate_items_lookup, Hv0. reflexivity. }
      destruct (ndenumerate_items_row_major _ _ _ _ Hwf Hitem0) as [Hr0 _].
      rewrite Hidx in Hr0. rewrite Hr in Hr0. injection Hr0 as ->. lia.
  - unfold for_loop, __iter__. simpl. rewrite Hmid.
    rewrite next_until_stop_running by lia.
    destruct self as [d g it]; simpl in *; subst it. reflexivity.
Qed.

End Iteration.

Lemma iteration_visits_every_element_once_witness :
  _iter example_map = None /\
  wf_array (data example_map) /\
  length (flat (data example_map)) < 40 /\
  for_loop 40 example_map
  = Some (inr (ndenumerate_items (data example_map)), example_map).
Proof.
  split; [reflexivity|]. split; [reflexivity|]. split; [vm_compute; lia|].
  refine (proj1 (@iteration_visits_every_element_once float example_map 40 _ _ _));
    [reflexivity | reflexivity | vm_compute; lia].
Defined.

Lemma iter_keeps_cursor_witness :
  _iter counting_map = None /\
  wf_array (data counting_map) /\
  for_loop 40 (advance 3 counting_map)
  = Some (inr (drop 3 (ndenumerate_items (data counting_map))), counting_map).
Proof.
  split; [reflexivity|]. split; [reflexivity|].
  refine (proj2 (proj2 (proj2
            (proj2 (@iter_keeps_cursor (option Z)) counting_map 3 40 _ _ _ _ _))));
    [reflexivity | reflexivity | lia | vm_compute; lia | vm_compute; lia].
Defined.

(** ** The data container *)

Section Container.
Context {V : Type}.
Implicit Types (self : MapBase V) (val d : ndarray V) (g : MapGeom).

Lemma data_setter_wrong_shape self val :
  shape val <> shape (data self) ->
  data_setter val self = (inl (Exception "Wrong shape."), self).
Proof.
  intros Hne. unfold data_setter. rewrite bool_decide_eq_true_2 by exact Hne.
  reflexivity.
Qed.

Lemma data_setter_same_shape self val :
  shape val = shape (data self) ->
  data_setter val self
  = (inr tt, {| _data := val; _geom := _geom self; _iter := _iter self |}).
Proof.
  intros Heq. unfold data_setter.
  rewrite bool_decide_eq_false_2 by (intros Hne; apply Hne; exact Heq).
  reflexivity.
Qed.

Lemma next_keeps_data_geom self :
  data (snd (__next__ self)) = data self /\
  geom (snd (__next__ self)) = geom self.
Proof.
  unfold __next__.
  destruct (ndenumerate_next _) as [[[] | item] it']; split; reflexivity.
Qed.

Lemma run_op_shape o self :
  shape (data (run_op o self)) = shape (data self).
Proof.
  destruct o as [| |val|val| |]; simpl; try reflexivity.
  - destruct (decide (shape val = shape (data self))) as [Heq|Hne].
    + rewrite data_setter_same_shape by exact Heq. exact Heq.
    + rewrite data_setter_wrong_shape by exact Hne. reflexivity.
  - rewrite (proj1 (next_keeps_data_geom self)). reflexivity.
Qed.

Lemma run_op_geom o self : geom (run_op o self) = geom self.
Proof.
  destruct o as [| |val|val| |]; simpl; try reflexivity.
  - unfold data_setter. destruct (bool_decide _); reflexivity.
  - apply next_keeps_data_geom.
Qed.

Lemma run_ops_shape ops : forall self,
  shape (data (run_ops ops self)) = shape (data self).
Proof.
  induction ops as [|o ops IH]; intros self; [reflexivity|].
  unfold run_ops in *. simpl. rewrite IH. apply run_op_shape.
Qed.

Lemma run_ops_geom ops : forall self, geom (run_ops ops self) = geom self.
Proof.
  induction ops as [|o ops IH]; intros self; [reflexivity|].
  unfold run_ops in *. simpl. rewrite IH. apply run_op_geom.
Qed.

(** C1, as the code has it: the shape of [data] is fixed when the map is
    built.  The setter raises on an array whose shape differs from the
    current data's and leaves the map as it was; it accepts an array of
    the same shape; so after any sequence of calls the data has the shape
    of the array given to [__init__], and it has the geometry's shape
    whenever that array had it.  [__init__] itself compares nothing. *)
Theorem data_shape_fixed_at_construction :
  (forall self val,
     shape val <> shape (data self) ->
     data_setter val self = (inl (Exception "Wrong shape."), self)) /\
  (forall self val,
     shape val = shape (data self) ->
     fst (data_setter val self) = inr tt /\
     data (snd (data_setter val self)) = val) /\
  (forall g d ops,
     shape (data (run_ops ops (__init__ g d))) = shape d) /\
  (forall g d ops,
     shape d = geom_shape g ->
     shape (data (run_ops ops (__init__ g d)))
     = geom_shape (geom (run_ops ops (__init__ g d)))).
Proof.
  split; [|split; [|split]].
  - apply data_setter_wrong_shape.
  - intros self val Heq. rewrite data_setter_same_shape by exact Heq.
    split; reflexivity.
  - intros g d ops. apply run_ops_shape.
  - intros g d ops Hd. rewrite run_ops_shape, run_ops_geom. exact Hd.
Qed.

(** C8: no call changes the geometry.  The data setter keeps it whether
    it accepts or raises, assigning to [geom] raises, [iter] and [next]
    keep it, and after any sequence of calls the [geom] property returns
    the geometry given to [__init__]. *)
Theorem geom_never_changes :
  (forall self val, geom (snd (data_setter val self)) = geom self) /\
  (forall self g,
     geom_setter g self = (inl (AttributeError "can't set attribute"), self)) /\
  (forall self o, geom (run_op o self) = geom self) /\
  (forall g d ops, geom (run_ops ops (__init__ g d)) = g).
Proof.
  split; [|split; [|split]].
  - intros self val. apply (run_op_geom (OpSetData val)).
  - reflexivity.
  - intros self o. apply run_op_geom.
  - intros g d ops. apply run_ops_geom.
Qed.

End Container.

Lemma data_shape_fixed_at_construction_witness :
  shape (zeros (V := float) (geom_shape example_geom)) = geom_shape example_geom /\
  shape (data (run_ops
    [OpNext; OpSetData (NdArray [2] [1%float; 2%float]); OpIter;
     OpSetData (NdArray [4; 4; 2] (replicate 32 1%float)); OpNext]
    example_map))
  = geom_shape (geom (run_ops
    [OpNext; OpSetData (NdArray [2] [1%float; 2%float]); OpIter;
     OpSetData (NdArray [4; 4; 2] (replicate 32 1%float)); OpNext]
    example_map)).
Proof.
  split; [reflexivity|].
  refine (proj2 (proj2 (proj2 (@data_shape_fixed_at_construction float)))
            example_geom (zeros (geom_shape example_geom)) _ _).
  reflexivity.
Defined.

(** [__init__] takes an array of shape (2,) for a geometry of shape
    (4, 4, 2); the setter then accepts another array of shape (2,) and
    raises on one of the geometry's shape. *)
Lemma init_does_not_compare_shapes :
  shape (data mismatched_map) = [2] /\
  geom_shape (geom mismatched_map) = [4; 4; 2] /\
  shape (data mismatched_map) <> geom_shape (geom mismatched_map) /\
  fst (data_setter (NdArray [2] [3%float; 4%float]) mismatched_map) = inr tt /\
  fst (data_setter (zeros (geom_shape example_geom)) mismatched_map)
  = inl (Exception "Wrong shape.").
Proof.
  split; [reflexivity|]. split; [reflexivity|]. split; [discriminate|].
  split; reflexivity.
Qed.

(** ** The factory *)

Lemma startswith_spec sub : forall s,
  startswith sub s = true <-> exists post, s = sub +:+ post.
Proof.
  induction sub as [|a sub IH]; intros s; simpl.
  - split; [intros _; exists s; reflexivity | reflexivity].
  - destruct s as [|b s].
    + split; [discriminate | intros [post H]; discriminate].
    + rewrite andb_true_iff, Ascii.eqb_eq, IH. split.
      * intros [-> [post ->]]. exists post. reflexivity.
      * intros [post H]. injection H as -> ->. split; [reflexivity | eauto].
Qed.

Lemma str_in_spec sub s :
  str_in sub s = true <-> exists pre post, s = pre +:+ sub +:+ post.
Proof.
  induction s as [|c s IH]; simpl.
  - rewrite orb_false_r, startswith_spec. split.
    + intros [post H]. exists EmptyString, post. exact H.
    + intros [pre [post H]]. destruct pre; [|discriminate]. exists post. exact H.
  - rewrite orb_true_iff, startswith_spec, IH. split.
    + intros [[post H] | [pre [post H]]].
      * exists EmptyString, post. exact H.
      * exists (String c pre), post. simpl. rewrite H. reflexivity.
    + intros [[|c' pre] [post H]].
      * left. exists post. exact H.
      * right. simpl in H. injection H as -> ->. eauto.
Qed.

Lemma lower_app a b : lower (a +:+ b) = lower a +:+ lower b.
Proof. induction a as [|c a IH]; simpl; [reflexivity | rewrite IH; reflexivity]. Qed.

Lemma lower_app_inv a : forall s b,
  lower s = a +:+ b -> exists a' b', s = a' +:+ b' /\ lower a' = a /\ lower b' = b.
Proof.
  induction a as [|c a IH]; intros s b H; simpl in H.
  - exists EmptyString, s. auto.
  - destruct s as [|c' s]; simpl in H; [discriminate|].
    injection H as Hc Hs. destruct (IH _ _ Hs) as (a' & b' & -> & Ha & Hb).
    exists (String c' a'), b'. simpl. rewrite Hc, Ha. auto.
Qed.

(** The test the code runs, [sub.lower() in s.lower()], is occurrence up
    to case. *)
Lemma ci_substring_str_in sub s :
  ci_substring sub s <-> str_in (lower sub) (lower s) = true.
Proof.
  rewrite str_in_spec. split.
  - intros (pre & mid & post & -> & Hmid).
    exists (lower pre), (lower post). rewrite !lower_app, Hmid. reflexivity.
  - intros (pre & post & H).
    destruct (lower_app_inv _ _ _ H) as (a' & r & -> & Ha & Hr).
    destruct (lower_app_inv _ _ _ Hr) as (m' & p' & -> & Hm & Hp).
    exists a', m', p'. split; [reflexivity | exact Hm].
Qed.

Lemma not_ci_substring_str_in sub s :
  ~ ci_substring sub s <-> str_in (lower sub) (lower s) = false.
Proof. rewrite ci_substring_str_in. apply not_true_iff_false. Qed.

Section Factory.
Context {R : Type}.
Implicit Types (modules : gmap string (gmap string (pyobj R)))
               (kwargs : gmap string pyval).

Lemma create_given_map_type modules kwargs s :
  kwargs !! "map_type"%string = Some (PyStr s) ->
  create modules kwargs
  = (_ <~ import_from modules "hpxmap" "HpxMap" ;;
     HpxMap <~ import_from modules "wcsmap" "HpxMap" ;;
     if str_in "wcs" (lower s) then raise (NameError "WcsMap")
     else if str_in "hpx" (lower s) then call_create HpxMap kwargs
     else raise (ValueError ("Unrecognized map type: " +:+ s))).
Proof.
  intros Hk. unfold create, setdefault. rewrite Hk. reflexivity.
Qed.

Lemma create_without_map_type modules kwargs :
  kwargs !! "map_type"%string = None ->
  create modules kwargs
  = (_ <~ import_from modules "hpxmap" "HpxMap" ;;
     _ <~ import_from modules "wcsmap" "HpxMap" ;;
     raise (NameError "WcsMap")).
Proof.
  intros Hk. unfold create, setdefault. rewrite Hk. reflexivity.
Qed.

Lemma import_from_defined modules m ns name obj :
  modules !! m = Some ns -> ns !! name = Some obj ->
  import_from modules m name = inr obj.
Proof. intros Hm Hn. unfold import_from. rewrite Hm, Hn. reflexivity. Qed.

Lemma import_from_raises modules m name e :
  import_from modules m name = inl e -> exists msg, e = ImportError msg.
Proof.
  unfold import_from. intros H.
  destruct (modules !! m) as [ns|]; [destruct (ns !! name)|];
    try discriminate; injection H as <-; eauto.
Qed.

Lemma imports_then_NameError modules :
  exists e,
    (_ <~ import_from modules "hpxmap" "HpxMap" ;;
     _ <~ import_from modules "wcsmap" "HpxMap" ;;
     @raise R (NameError "WcsMap")) = inl e /\
    (e = NameError "WcsMap" \/ exists msg, e = ImportError msg).
Proof.
  destruct (import_from modules "hpxmap" "HpxMap") as [e1|h] eqn:E1; simpl.
  { exists e1. split; [reflexivity|]. right. eapply import_from_raises; eassumption. }
  destruct (import_from modules "wcsmap" "HpxMap") as [e2|w] eqn:E2; simpl.
  { exists e2. split; [reflexivity|]. right. eapply import_from_raises; eassumption. }
  exists (NameError "WcsMap"). auto.
Qed.

(** C6, what the code does: with a [map_type] that contains "wcs" up to
    case, [create] never reaches [WcsMap.create]: it raises [NameError]
    for [WcsMap], or [ImportError] before that, whatever the sibling
    modules define; the factory of the docstring returns the result of
    [WcsMap.create] on the same keyword arguments.  With a [map_type] that
    contains "hpx" and not "wcs", and both imports going through, it
    calls [create] of the object [wcsmap] binds to [HpxMap], on the
    keyword arguments as received. *)
Theorem create_wcs_raises modules kwargs s :
  kwargs !! "map_type"%string = Some (PyStr s) ->
  (ci_substring "wcs" s ->
   (exists e, create modules kwargs = inl e /\
      (e = NameError "WcsMap" \/ exists msg, e = ImportError msg)) /\
   (forall hpx_ns wcs_ns hpx_cls wcs_create,
      modules !! "hpxmap"%string = Some hpx_ns ->
      hpx_ns !! "HpxMap"%string = Some hpx_cls ->
      modules !! "wcsmap"%string = Some wcs_ns ->
      wcs_ns !! "WcsMap"%string = Some (PyClass wcs_create) ->
      create_documented modules kwargs = wcs_create kwargs)) /\
  (~ ci_substring "wcs" s -> ci_substring "hpx" s ->
   forall h w,
     import_from modules "hpxmap" "HpxMap" = inr h ->
     import_from modules "wcsmap" "HpxMap" = inr w ->
     create modules kwargs = call_create w kwargs).
Proof.
  intros Hk. split.
  - intros Hwcs. apply ci_substring_str_in in Hwcs. lower_tags Hwcs. split.
    + rewrite (create_given_map_type _ _ _ Hk), Hwcs.
      destruct (imports_then_NameError modules) as (e & He & Hkind).
      exists e. split; [|exact Hkind].
      rewrite <- He.
      destruct (import_from modules "hpxmap" "HpxMap"); [reflexivity|].
      destruct (import_from modules "wcsmap" "HpxMap"); reflexivity.
    + intros hpx_ns wcs_ns hpx_cls wcs_create Hm1 Hn1 Hm2 Hn2.
      unfold create_documented, setdefault.
      rewrite (import_from_defined _ _ _ _ _ Hm1 Hn1).
      rewrite (import_from_defined _ _ _ _ _ Hm2 Hn2).
      rewrite Hk. simpl. rewrite Hwcs. reflexivity.
  - intros Hwcs Hhpx h w Hh Hw.
    apply not_ci_substring_str_in in Hwcs. apply ci_substring_str_in in Hhpx.
    lower_tags Hwcs. lower_tags Hhpx.
    rewrite (create_given_map_type _ _ _ Hk), Hh, Hw. simpl.
    rewrite Hwcs, Hhpx. reflexivity.
Qed.

(** C7, what the code does: with a [map_type] that contains neither
    "wcs" nor "hpx" up to case, [create] raises and builds nothing.  What
    it raises is [ValueError] with the message "Unrecognized map type: "
    followed by the [map_type] as given only if [wcsmap] binds a name
    [HpxMap] for the second import to find; if [wcsmap] binds none, the
    second import raises [ImportError] before [map_type] is looked at. *)
Theorem create_unrecognized_map_type modules kwargs s :
  kwargs !! "map_type"%string = Some (PyStr s) ->
  ~ ci_substring "wcs" s ->
  ~ ci_substring "hpx" s ->
  (exists e, create modules kwargs = inl e) /\
  (forall h w,
     import_from modules "hpxmap" "HpxMap" = inr h ->
     import_from modules "wcsmap" "HpxMap" = inr w ->
     create modules kwargs
     = inl (ValueError ("Unrecognized map type: " +:+ s))) /\
  (forall h wcs_ns,
     import_from modules "hpxmap" "HpxMap" = inr h ->
     modules !! "wcsmap"%string = Some wcs_ns ->
     wcs_ns !! "HpxMap"%string = None ->
     create modules kwargs = inl (ImportError "cannot import name HpxMap")).
Proof.
  intros Hk Hwcs Hhpx.
  apply not_ci_substring_str_in in Hwcs. apply not_ci_substring_str_in in Hhpx.
  lower_tags Hwcs. lower_tags Hhpx.
  rewrite (create_given_map_type _ _ _ Hk), Hwcs, Hhpx. split; [|split].
  - destruct (import_from modules "hpxmap" "HpxMap"); simpl; [eauto|].
    destruct (import_from modules "wcsmap" "HpxMap"); simpl; eauto.
  - intros h w Hh Hw. rewrite Hh, Hw. reflexivity.
  - intros h wcs_ns Hh Hm Hn. rewrite Hh. simpl.
    unfold import_from. rewrite Hm, Hn. reflexivity.
Qed.

(** C9, what the code does: without a [map_type] keyword, [setdefault]
    binds it to 'wcs' in the keyword arguments, and [create] then raises
    [NameError] for [WcsMap], or [ImportError] before that; the factory of
    the docstring returns the result of [WcsMap.create] on the keyword
    arguments with the default written in. *)
Theorem create_default_raises modules kwargs :
  kwargs !! "map_type"%string = None ->
  setdefault kwargs "map_type" (PyStr "wcs")
  = (PyStr "wcs", <["map_type"%string := PyStr "wcs"]> kwargs) /\
  (exists e, create modules kwargs = inl e /\
     (e = NameError "WcsMap" \/ exists msg, e = ImportError msg)) /\
  (forall hpx_ns wcs_ns hpx_cls wcs_create,
     modules !! "hpxmap"%string = Some hpx_ns ->
     hpx_ns !! "HpxMap"%string = Some hpx_cls ->
     modules !! "wcsmap"%string = Some wcs_ns ->
     wcs_ns !! "WcsMap"%string = Some (PyClass wcs_create) ->
     create_documented modules kwargs
     = wcs_create (<["map_type"%string := PyStr "wcs"]> kwargs)).
Proof.
  intros Hk. split; [|split].
  - unfold setdefault. rewrite Hk. reflexivity.
  - rewrite (create_without_map_type _ _ Hk). apply imports_then_NameError.
  - intros hpx_ns wcs_ns hpx_cls wcs_create Hm1 Hn1 Hm2 Hn2.
    unfold create_documented, setdefault.
    rewrite (import_from_defined _ _ _ _ _ Hm1 Hn1).
    rewrite (import_from_defined _ _ _ _ _ Hm2 Hn2).
    rewrite Hk. reflexivity.
Qed.

End Factory.

Lemma create_wcs_raises_witness :
  ({[ "map_type"%string := PyStr "WCS" ]} : gmap string pyval) !! "map_type"%string
  = Some (PyStr "WCS") /\
  ci_substring "wcs" "WCS" /\
  exists e,
    create sharing_modules {[ "map_type"%string := PyStr "WCS" ]} = inl e /\
    (e = NameError "WcsMap" \/ exists msg, e = ImportError msg).
Proof.
  assert (Hk : ({[ "map_type"%string := PyStr "WCS" ]} : gmap string pyval)
               !! "map_type"%string = Some (PyStr "WCS")) by reflexivity.
  assert (Hci : ci_substring "wcs" "WCS")
    by (apply ci_substring_str_in; reflexivity).
  split; [exact Hk|]. split; [exact Hci|].
  exact (proj1 (proj1 (create_wcs_raises sharing_modules _ "WCS" Hk) Hci)).
Defined.

Lemma create_unrecognized_map_type_witness :
  ({[ "map_type"%string := PyStr "Fits" ]} : gmap string pyval) !! "map_type"%string
  = Some (PyStr "Fits") /\
  ~ ci_substring "wcs" "Fits" /\
  ~ ci_substring "hpx" "Fits" /\
  create plain_modules {[ "map_type"%string := PyStr "Fits" ]}
  = inl (ImportError "cannot import name HpxMap") /\
  create sharing_modules {[ "map_type"%string := PyStr "Fits" ]}
  = inl (ValueError "Unrecognized map type: Fits").
Proof.
  assert (Hk : ({[ "map_type"%string := PyStr "Fits" ]} : gmap string pyval)
               !! "map_type"%string = Some (PyStr "Fits")) by reflexivity.
  assert (Hwcs : ~ ci_substring "wcs" "Fits")
    by (apply not_ci_substring_str_in; reflexivity).
  assert (Hhpx : ~ ci_substring "hpx" "Fits")
    by (apply not_ci_substring_str_in; reflexivity).
  split; [exact Hk|]. split; [exact Hwcs|]. split; [exact Hhpx|]. split.
  - exact (proj2 (proj2
             (create_unrecognized_map_type plain_modules _ "Fits" Hk Hwcs Hhpx))
             example_HpxMap {[ "WcsMap"%string := example_WcsMap ]}
             eq_refl eq_refl eq_refl).
  - exact (proj1 (proj2
             (create_unrecognized_map_type sharing_modules _ "Fits" Hk Hwcs Hhpx))
             example_HpxMap example_HpxMap eq_refl eq_refl).
Defined.

Lemma create_default_raises_witness :
  (∅ : gmap string pyval) !! "map_type"%string = None /\
  exists e,
    create sharing_modules ∅ = inl e /\
    (e = NameError "WcsMap" \/ exists msg, e = ImportError msg).
Proof.
  split; [reflexivity|].
  exact (proj1 (proj2 (create_default_raises sharing_modules ∅ eq_refl))).
Defined.

(** The factory on the two module layouts: the grid tags and the missing
    tag raise, where the docstring's factory returns what [WcsMap.create]
    returns. *)
Example create_wcs_on_sharing_modules :
  create sharing_modules {[ "map_type"%string := PyStr "wcs" ]}
  = inl (NameError "WcsMap") /\
  create sharing_modules {[ "map_type"%string := PyStr "WCS-sparse" ]}
  = inl (NameError "WcsMap") /\
  create sharing_modules ∅ = inl (NameError "WcsMap") /\
  create sharing_modules {[ "map_type"%string := PyStr "hpx" ]}
  = inr ("HpxMap"%string, {[ "map_type"%string := PyStr "hpx" ]}).
Proof. repeat split; reflexivity. Qed.

Example create_on_plain_modules :
  create plain_modules {[ "map_type"%string := PyStr "wcs" ]}
  = inl (ImportError "cannot import name HpxMap") /\
  create plain_modules {[ "map_type"%string := PyStr "hpx" ]}
  = inl (ImportError "cannot import name HpxMap") /\
  create plain_modules {[ "map_type"%string := PyStr "Fits" ]}
  = inl (ImportError "cannot import name HpxMap").
Proof. repeat split; reflexivity. Qed.

Example create_documented_on_plain_modules :
  create_documented plain_modules {[ "map_type"%string := PyStr "wcs" ]}
  = inr ("WcsMap"%string, {[ "map_type"%string := PyStr "wcs" ]}) /\
  create_documented plain_modules ∅
  = inr ("WcsMap"%string, {[ "map_type"%string := PyStr "wcs" ]}).
Proof. repeat split; reflexivity. Qed.

(** ** The accessor contract *)

Lemma pix_offset_in_range sh addr o :
  pix_offset sh addr = Some o ->
  Forall2 (fun (i : Z) (d : nat) => (0 <= i < Z.of_nat d)%Z) addr sh /\
  o < shape_size sh.
Proof.
  unfold pix_offset. intros H.
  destruct (mapM to_index addr) as [idx|] eqn:Hm; [|discriminate]. simpl in H.
  split.
  - apply mapM_Some_1 in Hm. apply ravel_multi_index_in_range in H.
    revert sh H. induction Hm as [|i n addr idx Hi Hm IH]; intros sh H.
    + inversion H; subst. constructor.
    + inversion H as [|n' d idx' sh' Hnd Hrest]; subst.
      constructor; [|apply IH; exact Hrest].
      unfold to_index in Hi. destruct (0 <=? i)%Z eqn:Hpos; [|discriminate].
      injection Hi as <-. apply Z.leb_le in Hpos. lia.
  - eapply unravel_ravel_index; exact H.
Qed.

Lemma pix_offset_outside sh addr :
  outside_extent sh addr -> pix_offset sh addr = None.
Proof.
  intros [_ (k & i & d & Hi & Hd & Hout)].
  destruct (pix_offset sh addr) as [o|] eqn:Ho; [|reflexivity].
  apply pix_offset_in_range in Ho as [Hall _].
  pose proof (Forall2_lookup_lr _ _ _ _ _ _ Hall Hi Hd) as Hin. simpl in Hin. lia.
Qed.

Lemma entries_length {A} (arrs : list (list A)) :
  length (entries arrs) = n_entries arrs.
Proof. unfold entries. rewrite length_fmap, length_seq. reflexivity. Qed.

Lemma entries_lookup {A} (arrs : list (list A)) k :
  k < n_entries arrs -> entries arrs !! k = Some (entry arrs k).
Proof.
  intros Hk. unfold entries. rewrite list_lookup_fmap.
  rewrite (lookup_seq_lt 0 _ k Hk). reflexivity.
Qed.

Section Accessors.
Context {V : Type} `{PixelValue V}.

Lemma read_pix_outside (a : ndarray V) addr :
  outside_extent (shape a) addr -> read_pix a addr = vnan.
Proof. intros Hout. unfold read_pix. rewrite pix_offset_outside by exact Hout. reflexivity. Qed.

Lemma get_by_pix_outside (self : MapBase V) pix interp :
  parallel (length (shape (data self))) pix = true ->
  exists vals,
    get_by_pix self pix interp = inr vals /\
    length vals = n_entries pix /\
    forall k, k < n_entries pix ->
      outside_extent (shape (data self)) (entry pix k) ->
      vals !! k = Some vnan.
Proof.
  intros Hpar. unfold get_by_pix. rewrite Hpar.
  eexists. split; [reflexivity|]. split.
  - rewrite length_fmap. apply entries_length.
  - intros k Hk Hout. rewrite list_lookup_fmap, entries_lookup by exact Hk.
    simpl. rewrite read_pix_outside by exact Hout. reflexivity.
Qed.

Lemma get_by_coords_outside (self : MapBase V) coords interp :
  parallel (coords_arity (geom self)) coords = true ->
  exists vals,
    get_by_coords self coords interp = inr vals /\
    length vals = n_entries coords /\
    forall k, k < n_entries coords ->
      outside_extent (shape (data self))
        (coord_to_pix (geom self) (entry coords k)) ->
      vals !! k = Some vnan.
Proof.
  intros Hpar. unfold get_by_coords. rewrite Hpar.
  eexists. split; [reflexivity|]. split.
  - rewrite !length_fmap. apply entries_length.
  - intros k Hk Hout. rewrite !list_lookup_fmap, entries_lookup by exact Hk.
    simpl. rewrite read_pix_outside by exact Hout. reflexivity.
Qed.

(** C3: on a map whose data has its geometry's shape, grid or
    tessellation, a read never raises on index arrays that are one array
    per dimension of the data, or on coordinate arrays that are one each
    for longitude, latitude and every non-spatial axis, of equal length:
    it returns one value per entry, and the value of every entry whose
    index tuple (for coordinates: the tuple the geometry converts it to)
    lies outside the geometry's extent is the not-a-number sentinel,
    under each interpolation mode. *)
Theorem read_outside_domain_is_nan (self : MapBase V) interp :
  shape (data self) = geom_shape (geom self) ->
  (forall pix, parallel (length (geom_shape (geom self))) pix = true ->
     exists vals,
       get_by_pix self pix interp = inr vals /\
       length vals = n_entries pix /\
       forall k, k < n_entries pix ->
         outside_extent (geom_shape (geom self)) (entry pix k) ->
         vals !! k = Some vnan) /\
  (forall coords, parallel (coords_arity (geom self)) coords = true ->
     exists vals,
       get_by_coords self coords interp = inr vals /\
       length vals = n_entries coords /\
       forall k, k < n_entries coords ->
         outside_extent (geom_shape (geom self))
           (coord_to_pix (geom self) (entry coords k)) ->
         vals !! k = Some vnan).
Proof.
  intros Hshape. rewrite <- Hshape. split.
  - intros pix. apply get_by_pix_outside.
  - intros coords. apply get_by_coords_outside.
Qed.

Implicit Types (self : MapBase V) (fl : list V) (es : list (list Z * V)).

Lemma hits_cons_hit sh o e es :
  pix_offset sh (fst e) = Some o -> hits sh o (e :: es) = snd e :: hits sh o es.
Proof. intros Hh. unfold hits. rewrite filter_cons_True by exact Hh. reflexivity. Qed.

Lemma hits_cons_miss sh o e es :
  pix_offset sh (fst e) <> Some o -> hits sh o (e :: es) = hits sh o es.
Proof. intros Hh. unfold hits. rewrite filter_cons_False by exact Hh. reflexivity. Qed.

Lemma foldl_add_at sh es : forall fl o,
  foldl (add_at sh) fl es !! o
  = (fun v => foldl vadd v (hits sh o es)) <$> (fl !! o).
Proof.
  induction es as [|e es IH]; intros fl o; simpl.
  - destruct (fl !! o); reflexivity.
  - rewrite IH. unfold add_at.
    destruct (pix_offset sh (fst e)) as [o'|] eqn:Ho.
    + destruct (decide (o' = o)) as [->|Hne].
      * rewrite list_lookup_alter_eq, hits_cons_hit by exact Ho.
        destruct (fl !! o); reflexivity.
      * rewrite list_lookup_alter_ne by exact Hne.
        rewrite hits_cons_miss by congruence. reflexivity.
    + rewrite hits_cons_miss by congruence. reflexivity.
Qed.

Lemma foldl_write_at sh es : forall fl o,
  foldl (write_at sh) fl es !! o
  = (fun v => default v (last (hits sh o es))) <$> (fl !! o).
Proof.
  induction es as [|e es IH]; intros fl o; simpl.
  - destruct (fl !! o); reflexivity.
  - rewrite IH. unfold write_at.
    destruct (pix_offset sh (fst e)) as [o'|] eqn:Ho.
    + destruct (decide (o' = o)) as [->|Hne].
      * rewrite hits_cons_hit by exact Ho. rewrite last_cons.
        destruct (fl !! o) as [v|] eqn:Hv.
        -- rewrite list_lookup_insert_eq by (eapply lookup_lt_Some; exact Hv).
           simpl. destruct (last (hits sh o es)); reflexivity.
        -- rewrite list_insert_ge by (apply lookup_ge_None; exact Hv).
           rewrite Hv. reflexivity.
      * rewrite list_lookup_insert_ne by exact Hne.
        rewrite hits_cons_miss by congruence. reflexivity.
    + rewrite hits_cons_miss by congruence. reflexivity.
Qed.

Lemma fill_addresses_ok self addrs ws :
  length ws = length addrs ->
  fill_addresses self addrs (Some ws)
  = (inr tt, with_flat self
       (foldl (add_at (shape (data self))) (flat (data self)) (zip addrs ws))).
Proof.
  intros Hl. unfold fill_addresses. simpl.
  rewrite (proj2 (Nat.eqb_eq _ _) Hl). reflexivity.
Qed.

Lemma fill_addresses_unit self addrs :
  fill_addresses self addrs None
  = fill_addresses self addrs (Some (replicate (length addrs) vone)).
Proof. reflexivity. Qed.

Lemma set_addresses_ok self addrs vals :
  length vals = length addrs ->
  set_addresses self addrs vals
  = (inr tt, with_flat self
       (foldl (write_at (shape (data self))) (flat (data self)) (zip addrs vals))).
Proof.
  intros Hl. unfold set_addresses.
  rewrite (proj2 (Nat.eqb_eq _ _) Hl). reflexivity.
Qed.

Lemma fill_by_pix_weights self pix weights :
  parallel (length (shape (data self))) pix = true ->
  length (default (replicate (n_entries pix) vone) weights) = n_entries pix ->
  fill_by_pix self pix weights
  = (inr tt,
     with_flat self
       (foldl (add_at (shape (data self))) (flat (data self))
          (zip (entries pix) (default (replicate (n_entries pix) vone) weights)))).
Proof.
  intros Hpar Hl. unfold fill_by_pix. rewrite Hpar.
  destruct weights as [ws|]; simpl in *.
  - apply fill_addresses_ok. rewrite entries_length. exact Hl.
  - rewrite fill_addresses_unit, fill_addresses_ok
      by (rewrite length_replicate; reflexivity).
    rewrite entries_length. reflexivity.
Qed.

Lemma fill_by_coords_weights self coords weights :
  parallel (coords_arity (geom self)) coords = true ->
  length (default (replicate (n_entries coords) vone) weights) = n_entries coords ->
  fill_by_coords self coords weights
  = (inr tt,
     with_flat self
       (foldl (add_at (shape (data self))) (flat (data self))
          (zip (coord_to_pix (geom self) <$> entries coords)
               (default (replicate (n_entries coords) vone) weights)))).
Proof.
  intros Hpar Hl. unfold fill_by_coords. rewrite Hpar.
  destruct weights as [ws|]; simpl in *.
  - apply fill_addresses_ok. rewrite length_fmap, entries_length. exact Hl.
  - rewrite fill_addresses_unit, fill_addresses_ok
      by (rewrite length_replicate; reflexivity).
    rewrite length_fmap, entries_length. reflexivity.
Qed.

Lemma set_by_pix_vals self pix vals :
  parallel (length (shape (data self))) pix = true ->
  length vals = n_entries pix ->
  set_by_pix self pix vals
  = (inr tt,
     with_flat self
       (foldl (write_at (shape (data self))) (flat (data self))
          (zip (entries pix) vals))).
Proof.
  intros Hpar Hl. unfold set_by_pix. rewrite Hpar.
  apply set_addresses_ok. rewrite entries_length. exact Hl.
Qed.

Lemma set_by_coords_vals self coords vals :
  parallel (coords_arity (geom self)) coords = true ->
  length vals = n_entries coords ->
  set_by_coords self coords vals
  = (inr tt,
     with_flat self
       (foldl (write_at (shape (data self))) (flat (data self))
          (zip (coord_to_pix (geom self) <$> entries coords) vals))).
Proof.
  intros Hpar Hl. unfold set_by_coords. rewrite Hpar.
  apply set_addresses_ok. rewrite length_fmap, entries_length. exact Hl.
Qed.

Lemma fill_unit_once self pix addr o v :
  parallel (length (shape (data self))) pix = true ->
  entries pix = [addr] ->
  pix_offset (shape (data self)) addr = Some o ->
  flat (data self) !! o = Some v ->
  fst (fill_by_pix self pix None) = inr tt /\
  shape (data (snd (fill_by_pix self pix None))) = shape (data self) /\
  flat (data (snd (fill_by_pix self pix None))) !! o = Some (vadd v vone).
Proof.
  intros Hpar He Ho Hv.
  assert (Hn : n_entries pix = 1) by (rewrite <- entries_length, He; reflexivity).
  rewrite fill_by_pix_weights
    by (try exact Hpar; simpl; rewrite length_replicate; reflexivity).
  simpl. repeat split.
  rewrite foldl_add_at, Hv, He, Hn. simpl.
  rewrite hits_cons_hit by exact Ho. reflexivity.
Qed.

(** C2: a fill adds to each pixel the weights of the entries that
    address it, one after the other in call order (a weight of one each
    when [weights] is omitted), so entries that repeat a pixel within one
    call all count, and the shape of the data and the geometry stay as
    they were; on a map of zeros, two fills of one in-domain entry
    with unit weight leave 0 + 1 + 1 in that pixel; a set leaves in each
    addressed pixel the value of the last entry that addresses it, and
    every other pixel as it was.  The same holds through coordinates,
    given as one array each for longitude, latitude and every non-spatial
    axis on a grid as on a tessellation. *)
Theorem fill_accumulates_set_overwrites :
  (forall self pix weights,
     parallel (length (shape (data self))) pix = true ->
     length (default (replicate (n_entries pix) vone) weights) = n_entries pix ->
     fst (fill_by_pix self pix weights) = inr tt /\
     shape (data (snd (fill_by_pix self pix weights))) = shape (data self) /\
     geom (snd (fill_by_pix self pix weights)) = geom self /\
     forall o,
       flat (data (snd (fill_by_pix self pix weights))) !! o
       = (fun v => foldl vadd v
            (hits (shape (data self)) o
               (zip (entries pix)
                    (default (replicate (n_entries pix) vone) weights))))
         <$> (flat (data self) !! o)) /\
  (forall self coords weights,
     parallel (coords_arity (geom self)) coords = true ->
     length (default (replicate (n_entries coords) vone) weights) = n_entries coords ->
     fst (fill_by_coords self coords weights) = inr tt /\
     shape (data (snd (fill_by_coords self coords weights))) = shape (data self) /\
     geom (snd (fill_by_coords self coords weights)) = geom self /\
     forall o,
       flat (data (snd (fill_by_coords self coords weights))) !! o
       = (fun v => foldl vadd v
            (hits (shape (data self)) o
               (zip (coord_to_pix (geom self) <$> entries coords)
                    (default (replicate (n_entries coords) vone) weights))))
         <$> (flat (data self) !! o)) /\
  (forall g pix addr o,
     parallel (length (geom_shape g)) pix = true ->
     entries pix = [addr] ->
     pix_offset (geom_shape g) addr = Some o ->
     get_by_pix
       (snd (fill_by_pix
          (snd (fill_by_pix (__init__ g (zeros (geom_shape g))) pix None))
          pix None))
       pix InterpNone
     = inr [vadd (vadd vzero vone) vone]) /\
  (forall self pix vals,
     parallel (length (shape (data self))) pix = true ->
     length vals = n_entries pix ->
     fst (set_by_pix self pix vals) = inr tt /\
     shape (data (snd (set_by_pix self pix vals))) = shape (data self) /\
     geom (snd (set_by_pix self pix vals)) = geom self /\
     forall o,
       flat (data (snd (set_by_pix self pix vals))) !! o
       = (fun v => default v
            (last (hits (shape (data self)) o (zip (entries pix) vals))))
         <$> (flat (data self) !! o)) /\
  (forall self coords vals,
     parallel (coords_arity (geom self)) coords = true ->
     length vals = n_entries coords ->
     fst (set_by_coords self coords vals) = inr tt /\
     shape (data (snd (set_by_coords self coords vals))) = shape (data self) /\
     geom (snd (set_by_coords self coords vals)) = geom self /\
     forall o,
       flat (data (snd (set_by_coords self coords vals))) !! o
       = (fun v => default v
            (last (hits (shape (data self)) o
               (zip (coord_to_pix (geom self) <$> entries coords) vals))))
         <$> (flat (data self) !! o)).
Proof.
  split; [|split; [|split; [|split]]].
  - intros self pix weights Hpar Hl.
    rewrite fill_by_pix_weights by assumption. simpl.
    split; [reflexivity|]. split; [reflexivity|]. split; [reflexivity|].
    intros o. apply foldl_add_at.
  - intros self coords weights Hpar Hl.
    rewrite fill_by_coords_weights by assumption. simpl.
    split; [reflexivity|]. split; [reflexivity|]. split; [reflexivity|].
    intros o. apply foldl_add_at.
  - intros g pix addr o Hpar He Ho.
    set (m0 := __init__ g (zeros (geom_shape g))).
    assert (Hv0 : flat (data m0) !! o = Some vzero).
    { simpl. apply lookup_replicate_2. eapply pix_offset_in_range; exact Ho. }
    destruct (fill_unit_once m0 pix addr o vzero Hpar He Ho Hv0) as (_ & Hs1 & Hv1).
    set (m1 := snd (fill_by_pix m0 pix None)) in *.
    assert (Hpar1 : parallel (length (shape (data m1))) pix = true)
      by (rewrite Hs1; exact Hpar).
    assert (Ho1 : pix_offset (shape (data m1)) addr = Some o)
      by (rewrite Hs1; exact Ho).
    destruct (fill_unit_once m1 pix addr o _ Hpar1 He Ho1 Hv1) as (_ & Hs2 & Hv2).
    set (m2 := snd (fill_by_pix m1 pix None)) in *.
    unfold get_by_pix. rewrite Hs2, Hpar1, He. simpl.
    unfold read_pix. rewrite Hs2, Ho1, Hv2. reflexivity.
  - intros self pix vals Hpar Hl.
    rewrite set_by_pix_vals by assumption. simpl.
    split; [reflexivity|]. split; [reflexivity|]. split; [reflexivity|].
    intros o. apply foldl_write_at.
  - intros self coords vals Hpar Hl.
    rewrite set_by_coords_vals by assumption. simpl.
    split; [reflexivity|]. split; [reflexivity|]. split; [reflexivity|].
    intros o. apply foldl_write_at.
Qed.
End Accessors.

Section Sum.
Context {V : Type} `{PixelValue V}.









End Sum.

Lemma read_outside_domain_is_nan_witness :
  shape (data example_map) = geom_shape (geom example_map) /\
  parallel (length (geom_shape (geom example_map)))
    [[10; 1; -1]; [1; 1; 1]; [0; 1; 0]]%Z = true /\
  outside_extent (geom_shape (geom example_map))
    (entry [[10; 1; -1]; [1; 1; 1]; [0; 1; 0]]%Z 0) /\
  (exists vals,
     get_by_pix example_map [[10; 1; -1]; [1; 1; 1]; [0; 1; 0]]%Z InterpLinear
     = inr vals /\
     vals !! 0 = Some nan) /\
  shape (data example_hpx_map) = geom_shape (geom example_hpx_map) /\
  parallel (coords_arity (geom example_hpx_map))
    [[1.5; 9.5]; [2.5; 0.5]; [0.5; 0.5]]%float = true /\
  (exists vals,
     get_by_coords example_hpx_map
       [[1.5; 9.5]; [2.5; 0.5]; [0.5; 0.5]]%float InterpNone
     = inr vals /\
     vals !! 1 = Some nan).
Proof.
  assert (Hout : outside_extent (geom_shape (geom example_map))
                   (entry [[10; 1; -1]; [1; 1; 1]; [0; 1; 0]]%Z 0)).
  { split; [reflexivity|]. exists 0, 10%Z, 4.
    split; [reflexivity|]. split; [reflexivity|]. right. simpl. lia. }
  split; [reflexivity|]. split; [reflexivity|]. split; [exact Hout|].
  split; [|split; [reflexivity|split; [reflexivity|]]].
  - destruct (proj1 (read_outside_domain_is_nan example_map InterpLinear eq_refl)
                [[10; 1; -1]; [1; 1; 1]; [0; 1; 0]]%Z eq_refl)
      as (vals & Hget & _ & Hnan).
    exists vals. split; [exact Hget|].
    apply Hnan; [vm_compute; lia | exact Hout].
  - destruct (proj2 (read_outside_domain_is_nan example_hpx_map InterpNone eq_refl)
                [[1.5; 9.5]; [2.5; 0.5]; [0.5; 0.5]]%float eq_refl)
      as (vals & Hget & _ & Hnan).
    exists vals. split; [exact Hget|].
    apply Hnan; [vm_compute; lia|].
    split; [reflexivity|]. exists 0, (-1)%Z, 12.
    split; [reflexivity|]. split; [reflexivity|]. left. lia.
Defined.

Lemma fill_accumulates_set_overwrites_witness :
  parallel (length (geom_shape example_geom)) [[1]; [1]; [0]]%Z = true /\
  entries [[1]; [1]; [0]]%Z = [[1; 1; 0]%Z] /\
  pix_offset (geom_shape example_geom) [1; 1; 0]%Z = Some 10 /\
  get_by_pix
    (snd (fill_by_pix (snd (fill_by_pix example_map [[1]; [1]; [0]]%Z None))
            [[1]; [1]; [0]]%Z None))
    [[1]; [1]; [0]]%Z InterpNone
  = inr [2%float] /\
  parallel (coords_arity (geom example_hpx_map))
    [[1.5; 1.5]; [2.5; 2.5]; [0.5; 0.5]]%float = true /\
  fst (fill_by_coords example_hpx_map
         [[1.5; 1.5]; [2.5; 2.5]; [0.5; 0.5]]%float None) = inr tt /\
  fst (set_by_coords example_hpx_map
         [[1.5; 1.5]; [2.5; 2.5]; [0.5; 0.5]]%float [5%float; 7%float]) = inr tt.
Proof.
  split; [reflexivity|]. split; [reflexivity|]. split; [reflexivity|].
  split; [|split; [reflexivity|split]].
  - exact (proj1 (proj2 (proj2 (@fill_accumulates_set_overwrites float _)))
             example_geom [[1]; [1]; [0]]%Z [1; 1; 0]%Z 10 eq_refl eq_refl eq_refl).
  - exact (proj1 (proj1 (proj2 (@fill_accumulates_set_overwrites float _))
                    example_hpx_map
                    [[1.5; 1.5]; [2.5; 2.5]; [0.5; 0.5]]%float None
                    eq_refl eq_refl)).
  - exact (proj1 (proj2 (proj2 (proj2 (proj2
                    (@fill_accumulates_set_overwrites float _))))
                    example_hpx_map
                    [[1.5; 1.5]; [2.5; 2.5]; [0.5; 0.5]]%float [5%float; 7%float]
                    eq_refl eq_refl)).
Defined.



(** The scenario of the accessor contract on the grid: a fill of 3.0 at
    pixel (1, 1) of bin 0 is read back, an index past the grid reads the
    sentinel, weights for one pixel add up while the one past the grid is
    dropped, a coordinate past the grid reads the sentinel, a set with a
    repeated address keeps the later value, and the image has 3.0 at
    pixel (1, 1). *)
Example accessors_on_example_map :
  get_by_pix (snd (fill_by_pix example_map [[1]; [1]; [0]]%Z (Some [3%float])))
    [[1; 10]; [1; 1]; [0; 0]]%Z InterpNone
  = inr [3%float; nan] /\
  get_by_pix
    (snd (fill_by_pix example_map [[1; 9; 1]; [1; 1; 1]; [0; 0; 0]]%Z
            (Some [5%float; 1%float; 7%float])))
    [[1]; [1]; [0]]%Z InterpNone
  = inr [12%float] /\
  get_by_coords example_map [[0.5; 4.5]; [1.5; 1.5]; [0.5; 0.5]]%float InterpNearest
  = inr [0%float; nan] /\
  get_by_pix (snd (set_by_pix example_map [[1; 1]; [1; 1]; [0; 0]]%Z [5%float; 7%float]))
    [[1]; [1]; [0]]%Z InterpNone
  = inr [7%float] /\
  getitem
    (data (sum_over_axes
       (snd (fill_by_pix example_map [[1]; [1]; [0]]%Z (Some [3%float])))))
    [1; 1]
  = Some 3%float.
Proof. repeat split; reflexivity. Qed.

(** ** More on the iteration protocol *)

Section Cursor.
Context {V : Type}.
Implicit Types (self : MapBase V) (arr d val : ndarray V) (g : MapGeom).

Lemma advance_add a : forall b self,
  advance (a + b) self = advance b (advance a self).
Proof.
  induction a as [|a IH]; intros b self; simpl; [reflexivity | apply IH].
Qed.

Lemma next_at_rank self r :
  _iter self = None ->
  r <= length (flat (data self)) ->
  __next__ (advance r self)
  = match flat (data self) !! r with
    | Some v =>
        (inr (unravel_index (shape (data self)) r, v),
         {| _data := _data self; _geom := _geom self;
            _iter := Some (NdEnumerate (data self) (S r)) |})
    | None =>
        (inl StopIteration,
         {| _data := _data self; _geom := _geom self; _iter := None |})
    end.
Proof.
  intros Hi Hr. destruct r as [|r].
  - simpl. rewrite next_fresh by exact Hi. unfold np_ndenumerate.
    apply next_running.
  - rewrite advance_fresh by (try exact Hi; lia). apply next_running.
Qed.

Lemma advance_full_pass self :
  _iter self = None ->
  advance (S (length (flat (data self)))) self = self.
Proof.
  intros Hi.
  replace (S (length (flat (data self)))) with (length (flat (data self)) + 1) by lia.
  rewrite advance_add. simpl. rewrite next_at_rank by (try exact Hi; lia).
  rewrite (proj2 (lookup_ge_None (flat (data self)) _)) by lia.
  destruct self as [d g it]; simpl in *; subst it. reflexivity.
Qed.

Lemma advance_passes self q : forall r,
  _iter self = None ->
  advance (q * S (length (flat (data self))) + r) self = advance r self.
Proof.
  induction q as [|q IH]; intros r Hi; [reflexivity|].
  replace (S q * S (length (flat (data self))) + r)
    with (S (length (flat (data self))) + (q * S (length (flat (data self))) + r))
    by lia.
  rewrite advance_add, advance_full_pass by exact Hi. apply IH. exact Hi.
Qed.

(** X1: calls of [next] on a map whose cursor is unset run in rounds of
    [n + 1] calls, [n] the number of elements: call number [j] (from 0)
    yields the pair of rank [j mod (n + 1)], and raises [StopIteration]
    when that rank is [n]; the call after a [StopIteration] starts over
    with the first element instead of raising again.  After each round
    the map is as it was. *)
Theorem next_starts_over_after_StopIteration self j :
  _iter self = None ->
  fst (__next__ (advance j self))
  = match ndenumerate_items (data self)
            !! (j mod S (length (flat (data self)))) with
    | Some item => inr item
    | None => inl StopIteration
    end /\
  advance (S (length (flat (data self)))) self = self.
Proof.
  intros Hi. split; [|apply advance_full_pass; exact Hi].
  pose proof (Nat.div_mod_eq j (S (length (flat (data self))))) as Hj.
  pose proof (Nat.mod_upper_bound j (S (length (flat (data self))))
                ltac:(lia)) as Hr.
  rewrite Hj at 1. rewrite (Nat.mul_comm (S _)).
  rewrite advance_passes by exact Hi.
  rewrite next_at_rank by (try exact Hi; lia).
  rewrite ndenumerate_items_lookup.
  destruct (flat (data self) !! _); reflexivity.
Qed.

(** X2: on a map with no element and an unset cursor, [next] raises
    [StopIteration] at once and leaves the map as it was, call after
    call, and a [for] loop ends after one call with nothing yielded. *)
Theorem next_on_empty_data self k fuel :
  _iter self = None ->
  flat (data self) = [] ->
  __next__ (advance k self) = (inl StopIteration, self) /\
  for_loop (S fuel) self = Some (inr [], self).
Proof.
  intros Hi He.
  assert (Hnext : __next__ self = (inl StopIteration, self)).
  { rewrite next_fresh by exact Hi. unfold np_ndenumerate. rewrite next_running.
    rewrite He. simpl. destruct self as [d g it]; simpl in *; subst it.
    reflexivity. }
  assert (Hadv : advance k self = self).
  { induction k as [|k IH]; [reflexivity|]. simpl. rewrite Hnext. exact IH. }
  split.
  - rewrite Hadv. exact Hnext.
  - unfold for_loop, __iter__. simpl. rewrite Hnext. reflexivity.
Qed.

(** X3: assigning [data] while a traversal is under way does not redirect it:
    the cursor stays on the array it was made over.  After [k] calls of
    [next] and an accepted assignment of [val], the [data] property
    returns [val], but a [for] loop yields the rest of the old array and
    nothing of [val]; only the loop after that one yields the pairs of
    [val]. *)
Theorem data_assignment_does_not_redirect_traversal self val k fuel :
  _iter self = None ->
  0 < k -> k <= length (flat (data self)) ->
  shape val = shape (data self) ->
  length (flat (data self)) < fuel ->
  length (flat val) < fuel ->
  fst (data_setter val (advance k self)) = inr tt /\
  data (snd (data_setter val (advance k self))) = val /\
  for_loop fuel (snd (data_setter val (advance k self)))
  = Some (inr (drop k (ndenumerate_items (data self))),
          {| _data := val; _geom := _geom self; _iter := None |}) /\
  for_loop fuel {| _data := val; _geom := _geom self; _iter := None |}
  = Some (inr (ndenumerate_items val),
          {| _data := val; _geom := _geom self; _iter := None |}).
Proof.
  intros Hi Hk Hle Hshape Hfuel Hfuel'.
  rewrite advance_fresh by assumption.
  rewrite data_setter_same_shape by exact Hshape. simpl.
  split; [reflexivity|]. split; [reflexivity|]. split.
  - unfold for_loop, __iter__. simpl.
    apply next_until_stop_running. lia.
  - unfold for_loop, __iter__. simpl.
    apply (next_until_stop_fresh fuel (Build_MapBase val (_geom self) None));
      [reflexivity | exact Hfuel'].
Qed.

Lemma run_ops_data (ops : list (op V)) : forall self,
  data (run_ops ops self)
  = default (data self)
      (last (filter (fun val => shape val = shape (data self)) (assigned ops))).
Proof.
  induction ops as [|o ops IH]; intros self; [reflexivity|].
  change (run_ops (o :: ops) self) with (run_ops ops (run_op o self)).
  rewrite IH.
  destruct o as [| |val|val| |]; try reflexivity.
  - cbn [assigned omap list_omap]. fold (assigned ops).
    simpl run_op.
    destruct (decide (shape val = shape (data self))) as [Heq|Hne].
    + rewrite data_setter_same_shape by exact Heq. simpl.
      rewrite filter_cons_True by exact Heq. rewrite last_cons.
      change (data {| _data := val; _geom := _geom self; _iter := _iter self |})
        with val.
      rewrite Heq.
      destruct (last (filter _ (assigned ops))); reflexivity.
    + rewrite data_setter_wrong_shape by exact Hne. simpl.
      rewrite filter_cons_False by exact Hne. reflexivity.
  - simpl run_op. cbn [assigned omap list_omap]. fold (assigned ops).
    rewrite (proj1 (next_keeps_data_geom self)). reflexivity.
Qed.

(** X4: after any sequence of calls, [data] is the last array assigned whose
    shape was that of the array given to [__init__], and that array
    itself if none was: rejected assignments, reads, [iter] and [next]
    leave it in place. *)
Theorem data_is_last_accepted_assignment g d (ops : list (op V)) :
  data (run_ops ops (__init__ g d))
  = default d (last (filter (fun val => shape val = shape d) (assigned ops))).
Proof. apply (run_ops_data ops (__init__ g d)). Qed.

End Cursor.

Lemma next_starts_over_after_StopIteration_witness :
  _iter counting_map = None /\
  fst (__next__ (advance 32 counting_map)) = inl StopIteration /\
  fst (__next__ (advance 33 counting_map)) = inr ([0; 0; 0], Some 0%Z) /\
  fst (__next__ (advance 70 counting_map)) = inr ([0; 2; 0], Some 4%Z).
Proof.
  split; [reflexivity|].
  split; [exact (proj1 (next_starts_over_after_StopIteration counting_map 32 eq_refl))|].
  split; [exact (proj1 (next_starts_over_after_StopIteration counting_map 33 eq_refl))|].
  exact (proj1 (next_starts_over_after_StopIteration counting_map 70 eq_refl)).
Defined.

Lemma next_on_empty_data_witness :
  _iter empty_map = None /\
  flat (data empty_map) = [] /\
  __next__ (advance 5 empty_map) = (inl StopIteration, empty_map) /\
  for_loop 1 empty_map = Some (inr [], empty_map).
Proof.
  split; [reflexivity|]. split; [reflexivity|].
  exact (next_on_empty_data empty_map 5 0 eq_refl eq_refl).
Defined.

Lemma data_assignment_does_not_redirect_traversal_witness :
  _iter counting_map = None /\
  shape ones_array = shape (data counting_map) /\
  for_loop 40 (snd (data_setter ones_array (advance 30 counting_map)))
  = Some (inr [([3; 3; 0], Some 30%Z); ([3; 3; 1], Some 31%Z)],
          {| _data := ones_array; _geom := example_geom; _iter := None |}).
Proof.
  split; [reflexivity|]. split; [reflexivity|].
  refine (proj1 (proj2 (proj2
    (data_assignment_does_not_redirect_traversal counting_map ones_array 30 40
       eq_refl _ _ eq_refl _ _))));
    vm_compute; lia.
Defined.

(** ** More on the factory *)

Section Selection.
Context {R : Type}.
Implicit Types (modules : gmap string (gmap string (pyobj R)))
               (kwargs : gmap string pyval).

(** X6: the test [create] runs on a [map_type], [tag in map_type.lower()]
    for a lower-case [tag], holds exactly when [map_type] contains the
    letters of [tag] in a row, each in either case. *)
Theorem map_type_test_ignores_case tag s :
  lower tag = tag ->
  (str_in tag (lower s) = true <->
   exists pre mid post,
     s = pre +:+ mid +:+ post /\ lower mid = tag) /\
  (forall s', lower s' = lower s -> str_in tag (lower s') = str_in tag (lower s)).
Proof.
  intros Htag. split.
  - rewrite <- Htag at 1. rewrite <- ci_substring_str_in.
    unfold ci_substring. rewrite Htag. reflexivity.
  - intros s' Hs. rewrite Hs. reflexivity.
Qed.

(** X5: [create] returns only through its "hpx" branch: whenever it
    returns, [map_type] was given, the test for "wcs" on it gave false
    and the test for "hpx" gave true (for a string: it contains "hpx"
    and not "wcs" up to case), and what it returns is what [create] of
    the object [wcsmap] binds to [HpxMap] returns on the keyword
    arguments exactly as received.  No call without [map_type], and no
    call with a [map_type] that passes the test for "wcs", returns. *)
Theorem create_returns_only_through_hpx modules kwargs r :
  create modules kwargs = inr r ->
  exists v w,
    kwargs !! "map_type"%string = Some v /\
    tag_in_lower "wcs" v = inr false /\
    tag_in_lower "hpx" v = inr true /\
    (forall s, v = PyStr s -> ~ ci_substring "wcs" s /\ ci_substring "hpx" s) /\
    import_from modules "wcsmap" "HpxMap" = inr w /\
    call_create w kwargs = inr r.
Proof.
  intros Hr.
  destruct (kwargs !! "map_type"%string) as [v|] eqn:Hk.
  - unfold create, setdefault in Hr. rewrite Hk in Hr.
    destruct (import_from modules "hpxmap" "HpxMap") as [e|h]; [discriminate|].
    destruct (import_from modules "wcsmap" "HpxMap") as [e|w] eqn:Hw;
      [discriminate|].
    simpl in Hr.
    destruct (tag_in_lower "wcs" v) as [e|[|]] eqn:Hwcs; simpl in Hr;
      [discriminate | discriminate |].
    destruct (tag_in_lower "hpx" v) as [e|[|]] eqn:Hhpx; simpl in Hr;
      [discriminate | | discriminate].
    exists v, w. split; [reflexivity|]. split; [exact Hwcs|].
    split; [exact Hhpx|]. split; [|split; [reflexivity | exact Hr]].
    intros s ->. simpl in Hwcs, Hhpx.
    injection Hwcs as Hwcs. injection Hhpx as Hhpx. split.
    + apply not_ci_substring_str_in. exact Hwcs.
    + apply ci_substring_str_in. exact Hhpx.
  - rewrite (create_without_map_type _ _ Hk) in Hr.
    destruct (imports_then_NameError modules) as (e & He & _).
    rewrite He in Hr. discriminate.
Qed.

(** The imports come first: when [hpxmap] defines [HpxMap] and [wcsmap]
    binds no name [HpxMap], [create] raises the [ImportError] of its
    second import on every keyword arguments, before [map_type] is read
    or defaulted. *)
Theorem create_imports_before_validation modules kwargs hpx_ns hpx_cls wcs_ns :
  modules !! "hpxmap"%string = Some hpx_ns ->
  hpx_ns !! "HpxMap"%string = Some hpx_cls ->
  modules !! "wcsmap"%string = Some wcs_ns ->
  wcs_ns !! "HpxMap"%string = None ->
  create modules kwargs = inl (ImportError "cannot import name HpxMap").
Proof.
  intros Hm1 Hn1 Hm2 Hn2. unfold create.
  rewrite (import_from_defined _ _ _ _ _ Hm1 Hn1). simpl.
  unfold import_from. rewrite Hm2, Hn2. reflexivity.
Qed.

(** X7: the default stands in for a missing [map_type] only: a
    [map_type] that is given is kept by [setdefault] whatever its type,
    and when the test for "wcs" raises on it ([AttributeError] for
    [None], which has no [lower]; [TypeError] for [bytes] on Python 3),
    [create] raises that exception once both imports are through: it
    neither takes the default nor reaches the [ValueError] of an
    unrecognized type. *)
Theorem create_keeps_given_map_type modules kwargs v e h w :
  kwargs !! "map_type"%string = Some v ->
  import_from modules "hpxmap" "HpxMap" = inr h ->
  import_from modules "wcsmap" "HpxMap" = inr w ->
  tag_in_lower "wcs" v = inl e ->
  setdefault kwargs "map_type" (PyStr "wcs") = (v, kwargs) /\
  create modules kwargs = inl e /\
  forall default_kwargs,
    default_kwargs !! "map_type"%string = None ->
    create modules default_kwargs = inl (NameError "WcsMap").
Proof.
  intros Hk Hh Hw He. split; [|split].
  - unfold setdefault. rewrite Hk. reflexivity.
  - unfold create, setdefault. rewrite Hh, Hw, Hk. simpl. rewrite He. reflexivity.
  - intros default_kwargs Hd.
    rewrite (create_without_map_type _ _ Hd), Hh, Hw. reflexivity.
Qed.

End Selection.

Lemma map_type_test_ignores_case_witness :
  lower "hpx" = "hpx"%string /\
  str_in "hpx" (lower "My-HpX-sparse") = true /\
  exists pre mid post,
    "My-HpX-sparse"%string = pre +:+ mid +:+ post /\ lower mid = "hpx"%string.
Proof.
  split; [reflexivity|]. split; [reflexivity|].
  exact (proj1 (proj1 (map_type_test_ignores_case "hpx" "My-HpX-sparse" eq_refl))
           eq_refl).
Defined.

Lemma create_returns_only_through_hpx_witness :
  create shadowing_modules {[ "map_type"%string := PyStr "HPX" ]}
  = inr ("wcsmap.HpxMap"%string, {[ "map_type"%string := PyStr "HPX" ]}) /\
  exists v w,
    ({[ "map_type"%string := PyStr "HPX" ]} : gmap string pyval) !! "map_type"%string
    = Some v /\
    tag_in_lower "wcs" v = inr false /\
    tag_in_lower "hpx" v = inr true /\
    (forall s, v = PyStr s -> ~ ci_substring "wcs" s /\ ci_substring "hpx" s) /\
    import_from shadowing_modules "wcsmap" "HpxMap" = inr w /\
    call_create w {[ "map_type"%string := PyStr "HPX" ]}
    = inr ("wcsmap.HpxMap"%string, {[ "map_type"%string := PyStr "HPX" ]}).
Proof.
  split; [reflexivity|].
  exact (create_returns_only_through_hpx shadowing_modules
           {[ "map_type"%string := PyStr "HPX" ]}
           ("wcsmap.HpxMap"%string, {[ "map_type"%string := PyStr "HPX" ]})
           eq_refl).
Defined.

Lemma create_imports_before_validation_witness :
  plain_modules !! "wcsmap"%string = Some {[ "WcsMap"%string := example_WcsMap ]} /\
  create plain_modules {[ "map_type"%string := PyStr "hpx" ]}
  = inl (ImportError "cannot import name HpxMap") /\
  create plain_modules ∅ = inl (ImportError "cannot import name HpxMap").
Proof.
  split; [reflexivity|]. split.
  - exact (create_imports_before_validation plain_modules _
             {[ "HpxMap"%string := example_HpxMap ]} example_HpxMap
             {[ "WcsMap"%string := example_WcsMap ]}
             eq_refl eq_refl eq_refl eq_refl).
  - exact (create_imports_before_validation plain_modules ∅
             {[ "HpxMap"%string := example_HpxMap ]} example_HpxMap
             {[ "WcsMap"%string := example_WcsMap ]}
             eq_refl eq_refl eq_refl eq_refl).
Defined.

Lemma create_keeps_given_map_type_witness :
  ({[ "map_type"%string := py_None ]} : gmap string pyval) !! "map_type"%string
  = Some py_None /\
  create sharing_modules {[ "map_type"%string := py_None ]}
  = inl (AttributeError "'NoneType' object has no attribute 'lower'") /\
  create sharing_modules {[ "map_type"%string := py_bytes "hpx" ]}
  = inl (TypeError "a bytes-like object is required, not 'str'").
Proof.
  split; [reflexivity|]. split.
  - exact (proj1 (proj2 (create_keeps_given_map_type sharing_modules
                  {[ "map_type"%string := py_None ]} py_None _
                  example_HpxMap example_HpxMap eq_refl eq_refl eq_refl eq_refl))).
  - exact (proj1 (proj2 (create_keeps_given_map_type sharing_modules
                  {[ "map_type"%string := py_bytes "hpx" ]} (py_bytes "hpx") _
                  example_HpxMap example_HpxMap eq_refl eq_refl eq_refl eq_refl))).
Defined.

(** An object that is no string and whose [lower] gives "hpx" goes
    through the "hpx" branch. *)
Example create_on_object_with_lower :
  create shadowing_modules
    {[ "map_type"%string :=
         PyOther "<Tag>" (fun tag => ok (str_in tag "hpx")) ]}
  = call_create other_HpxMap
      {[ "map_type"%string :=
           PyOther "<Tag>" (fun tag => ok (str_in tag "hpx")) ]}.
Proof. reflexivity. Qed.

(** ** Two loops over one map *)

Section Nested.
Context {V : Type}.
Implicit Types (self : MapBase V).

Lemma inner_loop_rewinds self fuel :
  _iter self = None ->
  flat (data self) <> [] ->
  length (flat (data self)) < fuel ->
  exists a,
    __next__ self = (inr a, advance 1 self) /\
    ndenumerate_items (data self) !! 0 = Some a /\
    for_loop fuel (advance 1 self)
    = Some (inr (drop 1 (ndenumerate_items (data self))), self).
Proof.
  intros Hi Hne Hfuel.
  assert (Hlen : 0 < length (flat (data self)))
    by (destruct (flat (data self)); [congruence | simpl; lia]).
  destruct (lookup_lt_is_Some_2 (flat (data self)) 0 Hlen) as [v Hv].
  exists (unravel_index (shape (data self)) 0, v).
  assert (Hnext : __next__ self
                  = (inr (unravel_index (shape (data self)) 0, v),
                     advance 1 self)).
  { rewrite (advance_fresh 1 self Hi) by lia.
    rewrite next_fresh by exact Hi. unfold np_ndenumerate.
    rewrite next_running, Hv. reflexivity. }
  split; [exact Hnext|]. split.
  - rewrite ndenumerate_items_lookup, Hv. reflexivity.
  - rewrite (advance_fresh 1 self Hi) by lia.
    unfold for_loop, __iter__. simpl.
    rewrite next_until_stop_running by lia.
    destruct self as [d g it]; simpl in *; subst it. reflexivity.
Qed.

(** X8: a loop over a map whose body loops over the same map never ends
    when the map has an element: the inner loop uses up the cursor the
    outer loop is on and unsets it, so each round of the outer loop
    starts with the map as it was before the first and takes the first
    element again.  However many rounds are allowed, the outer loop has
    not reached [StopIteration]. *)
Theorem nested_loops_do_not_end self inner :
  _iter self = None ->
  flat (data self) <> [] ->
  length (flat (data self)) < inner ->
  (forall fuel, nested_for fuel inner self = None) /\
  (exists a,
     fst (__next__ self) = inr a /\
     for_loop inner (snd (__next__ self))
     = Some (inr (drop 1 (ndenumerate_items (data self))), self)).
Proof.
  intros Hi Hne Hinner.
  destruct (inner_loop_rewinds self inner Hi Hne Hinner) as (a & Hnext & _ & Hloop).
  split.
  - intros fuel. induction fuel as [|fuel IH]; [reflexivity|].
    cbn [nested_for]. rewrite Hnext, Hloop, IH. reflexivity.
  - exists a. rewrite Hnext. split; [reflexivity | exact Hloop].
Qed.

End Nested.

Lemma nested_loops_do_not_end_witness :
  _iter counting_map = None /\
  flat (data counting_map) <> [] /\
  nested_for 50 40 counting_map = None.
Proof.
  assert (Hne : flat (data counting_map) <> []) by discriminate.
  split; [reflexivity|]. split; [exact Hne|].
  refine (proj1 (nested_loops_do_not_end counting_map 40 eq_refl Hne _) 50).
  vm_compute; lia.
Defined.

(** The accessors by coordinates on the tessellation: three coordinate
    arrays (lon, lat, axis) address data of two dimensions; weights for
    one pixel add up, a set keeps the later value, and a coordinate off
    the sphere's rings reads the sentinel. *)
Example accessors_on_tessellation_map :
  get_by_coords
    (snd (fill_by_coords example_hpx_map
            [[1.5; 1.5; 9.5]; [2.5; 2.5; 0.5]; [0.5; 0.5; 0.5]]%float
            (Some [3%float; 4%float; 1%float])))
    [[1.5; 9.5]; [2.5; 0.5]; [0.5; 0.5]]%float InterpNone
  = inr [7%float; nan] /\
  get_by_pix
    (snd (set_by_coords example_hpx_map
            [[1.5; 1.5]; [2.5; 2.5]; [0.5; 0.5]]%float [5%float; 7%float]))
    [[9]; [0]]%Z InterpNone
  = inr [7%float] /\
  get_by_coords example_hpx_map [[1.5]; [0.5]]%float InterpNone
  = inl (ValueError "coordinate arrays do not match the map").
Proof. repeat split; reflexivity. Qed.

(** [sum_over_axes] on a store: the image gets array object 1, and a
    fill through the map changes array object 0 only. *)
Example sum_over_axes_on_a_store :
  sum_over_axes_alloc {[ 0 := data example_map ]}
    {| ref_data := 0; ref_geom := example_geom |}
  = Some (<[1 := data (sum_over_axes example_map)]> {[ 0 := data example_map ]},
          {| ref_data := 1; ref_geom := to_image example_geom |}) /\
  (exists st'',
     fill_by_pix_inplace
       (<[1 := data (sum_over_axes example_map)]> {[ 0 := data example_map ]})
       {| ref_data := 0; ref_geom := example_geom |}
       [[1]; [1]; [0]]%Z (Some [3%float])
     = Some (inr tt, st'') /\
     st'' !! 0
     = Some (data (snd (fill_by_pix example_map [[1]; [1]; [0]]%Z (Some [3%float])))) /\
     st'' !! 1 = Some (data (sum_over_axes example_map))).
Proof.
  split; [reflexivity|].
  eexists. split; [reflexivity|]. split; reflexivity.
Qed.
